(** * sc2-monitor: the API access layer ([sc2monitor/sc2api.py], [sc2monitor/model.py])

    A shallow embedding of the enumerations of [model.py] and of the
    [SC2API] class of [sc2api.py]: the profile-URL parser, the token
    manager, the retrying request executor and the ladder reconciliation
    loop, followed by the properties established about them.

    Conventions of the embedding.
    - Python [str] values are [string]s; text is ASCII, and [str.lower()] is
      the ASCII lowering (no character outside ASCII lowers to one of the
      letters the code compares with).
    - Python [int] is [Z].  [None] is [None] of an [option].
    - An exception is a value of [exn]; fallible pure code returns
      [exn + A] with [inl] the raised exception. *)

From Stdlib Require Import ZArith String Ascii List Bool Lia.
From stdpp Require Import base list strings gmap.

Local Open Scope string_scope.
Local Open Scope Z_scope.
Local Open Scope list_scope.

(** ** Exceptions *)

(** The [ValueError]s the code raises, by origin. *)
Inductive value_error : Type :=
| UnknownRace (code : string)          (* 'Unknown race {}.' *)
| UnknownLeague (code : string)        (* 'Unknown league {}.' *)
| InvalidProfileUrl (url : string)     (* 'Invalid profile url {}' *)
| NotAValidMember (enum : string) (value : Z) (* Enum(value) on a missing value *)
| InvalidIntLiteral (text : string).   (* int(text) on a non-number *)

Inductive exn : Type :=
| ValueError (why : value_error)
| KeyError (key : string)
| IndexError
| AssertionError
| TypeError
| NameError (name : string)
| InvalidApiResponse (api_url : Z).

Abbreviation result A := (exn + A)%type.

Definition ok {A} (a : A) : result A := inr a.
Definition raise {A} (e : exn) : result A := inl e.

Definition rbind {A B} (m : result A) (f : A -> result B) : result B :=
  match m with
  | inl e => inl e
  | inr a => f a
  end.

(** ** model.py: enumerations *)

Module Py.

(** ASCII [str.lower()] on one character. *)
Definition lower_ascii (c : ascii) : ascii :=
  let n := nat_of_ascii c in
  if (Nat.leb 65 n && Nat.leb n 90)%bool then ascii_of_nat (n + 32) else c.

Fixpoint lower (s : string) : string :=
  match s with
  | EmptyString => EmptyString
  | String c s' => String (lower_ascii c) (lower s')
  end.

(** [s[0:1]] : the first character as a string, empty on the empty string. *)
Definition slice01 (s : string) : string :=
  match s with
  | EmptyString => EmptyString
  | String c _ => String c EmptyString
  end.

(** [s[0]] : raises [IndexError] on the empty string. *)
Definition item0 (s : string) : result string :=
  match s with
  | EmptyString => raise IndexError
  | String c _ => ok (String c EmptyString)
  end.

(** Truth value of [str | None]. *)
Definition truthy (s : option string) : bool :=
  match s with
  | None => false
  | Some EmptyString => false
  | Some _ => true
  end.

End Py.

(** [for m in cls.__members__: if m[0:1].lower() == s[0:1].lower(): return cls[m]];
    [None] when the loop ends without returning. *)
Fixpoint first_letter_member {E} (members : list (string * E)) (s : string) : option E :=
  match members with
  | [] => None
  | (name, v) :: rest =>
      if String.eqb (Py.lower (Py.slice01 name)) (Py.lower (Py.slice01 s))
      then Some v
      else first_letter_member rest s
  end.

(** [cls[name]] : member by exact name, [KeyError] otherwise. *)
Fixpoint member_by_name {E} (members : list (string * E)) (name : string) : result E :=
  match members with
  | [] => raise (KeyError name)
  | (n, v) :: rest => if String.eqb n name then ok v else member_by_name rest name
  end.

Inductive Result : Type := ResultUnknown | Win | Loss | Tie.
Inductive Race : Type := Random | Protoss | Terran | Zerg.
Inductive Server : Type := ServerUnknown | America | Europe | Korea.
Inductive League : Type :=
| Unranked | Bronze | Silver | Gold | Platinum | Diamond | Master | Grandmaster.

Module ResultEnum.
Definition members : list (string * Result) :=
  [("Unknown", ResultUnknown); ("Win", Win); ("Loss", Loss); ("Tie", Tie)].

(** [Result[name]] *)
Definition getitem (name : string) : result Result := member_by_name members name.

(** The argument of [Result.get]: a [str], an [int] or anything else. *)
Inductive arg : Type := AStr (s : string) | AInt (z : Z) | AOther.

(** [Result.get(value)] *)
Definition get (value : arg) : result Result :=
  match value with
  | AStr s =>
      match s with
      | EmptyString => raise IndexError            (* value[0] *)
      | _ => match first_letter_member members s with
             | Some r => ok r
             | None => ok ResultUnknown
             end
      end
  | AInt z =>
      if z =? 1 then ok Win
      else if z =? -1 then ok Loss
      else if z =? 0 then ok Tie
      else ok ResultUnknown
  | AOther => ok ResultUnknown
  end.
End ResultEnum.

Module RaceEnum.
Definition members : list (string * Race) :=
  [("Random", Random); ("Protoss", Protoss); ("Terran", Terran); ("Zerg", Zerg)].

(** [Race.get(str)] *)
Definition get (str : option string) : result Race :=
  if negb (Py.truthy str) then ok Random
  else
    let s := default "" str in
    match first_letter_member members s with
    | Some r => ok r
    | None => raise (ValueError (UnknownRace s))
    end.
End RaceEnum.

Module ServerEnum.
Definition value (s : Server) : Z :=
  match s with
  | ServerUnknown => 0 | America => 1 | Europe => 2 | Korea => 3
  end.

(** [Server(v)] : member by value. *)
Definition of_value (v : Z) : result Server :=
  if v =? 0 then ok ServerUnknown
  else if v =? 1 then ok America
  else if v =? 2 then ok Europe
  else if v =? 3 then ok Korea
  else raise (ValueError (NotAValidMember "Server" v)).

Definition id (s : Server) : Z := value s.
End ServerEnum.

Module LeagueEnum.
Definition members : list (string * League) :=
  [("Unranked", Unranked); ("Bronze", Bronze); ("Silver", Silver);
   ("Gold", Gold); ("Platinum", Platinum); ("Diamond", Diamond);
   ("Master", Master); ("Grandmaster", Grandmaster)].

Definition value (l : League) : Z :=
  match l with
  | Unranked => -1 | Bronze => 0 | Silver => 1 | Gold => 2
  | Platinum => 3 | Diamond => 4 | Master => 5 | Grandmaster => 6
  end.

(** [League.get(str)] *)
Definition get (str : option string) : result League :=
  if negb (Py.truthy str) then ok Unranked
  else
    let s := default "" str in
    match first_letter_member members s with
    | Some l => ok l
    | None => raise (ValueError (UnknownLeague s))
    end.
End LeagueEnum.

(** ** The subset of [re] used by [SC2API._precompile]

    A backtracking matcher in continuation-passing style, with the
    priorities of Python's [re]: alternatives left to right, [?] and [+]
    greedy. Patterns are compiled with [re.IGNORECASE], so a literal
    matches either case of its letter. *)

Module Re.

Inductive regex : Type :=
| Eps
| Lit (c : ascii)                 (* a literal character *)
| AnyChar                         (* [.] : anything but a newline *)
| Class (p : ascii -> bool)       (* [\w], [\d], [[1-5]] *)
| Plus (p : ascii -> bool)        (* [\w+], [\d+] : one or more, greedy *)
| Seq (r1 r2 : regex)
| Alt (r1 r2 : regex)             (* [r1|r2] *)
| Opt (r : regex)                 (* [r?] and [(?:r)?] *)
| Group (n : nat) (r : regex).    (* the n-th capturing group *)

(** Captured groups, most recent first. *)
Definition captures := list (nat * string).

Fixpoint group (m : captures) (n : nat) : option string :=
  match m with
  | [] => None
  | (k, s) :: rest => if Nat.eqb k n then Some s else group rest n
  end.

Definition is_digit (c : ascii) : bool :=
  let n := nat_of_ascii c in (Nat.leb 48 n && Nat.leb n 57)%bool.

Definition is_word (c : ascii) : bool :=
  let n := nat_of_ascii c in
  ((Nat.leb 48 n && Nat.leb n 57) || (Nat.leb 65 n && Nat.leb n 90)
   || (Nat.leb 97 n && Nat.leb n 122) || Nat.eqb n 95)%bool.

(** [[a-b]] *)
Definition in_range (a b : ascii) (c : ascii) : bool :=
  (Nat.leb (nat_of_ascii a) (nat_of_ascii c)
   && Nat.leb (nat_of_ascii c) (nat_of_ascii b))%bool.

Definition eqb_nocase (a b : ascii) : bool :=
  Ascii.eqb (Py.lower_ascii a) (Py.lower_ascii b).

(** The part of [s] consumed when [rest] is what remains of it. *)
Fixpoint take (n : nat) (s : string) : string :=
  match n, s with
  | S n', String c s' => String c (take n' s')
  | _, _ => EmptyString
  end.

Definition consumed (s rest : string) : string :=
  take (String.length s - String.length rest) s.

Section Matcher.
Context {R : Type}.

(** [p+] : as many characters of the class as possible, then fewer. *)
Fixpoint greedy_plus (p : ascii -> bool) (s : string)
         (k : string -> option R) : option R :=
  match s with
  | String c s' =>
      if p c then
        match greedy_plus p s' k with
        | Some r => Some r
        | None => k s'
        end
      else None
  | EmptyString => None
  end.

Fixpoint exec (r : regex) (s : string) (m : captures)
         (k : string -> captures -> option R) : option R :=
  match r with
  | Eps => k s m
  | Lit c =>
      match s with
      | String c' s' => if eqb_nocase c c' then k s' m else None
      | EmptyString => None
      end
  | AnyChar =>
      match s with
      | String c' s' => if Ascii.eqb c' "010"%char then None else k s' m
      | EmptyString => None
      end
  | Class p =>
      match s with
      | String c' s' => if p c' then k s' m else None
      | EmptyString => None
      end
  | Plus p => greedy_plus p s (fun s' => k s' m)
  | Seq r1 r2 => exec r1 s m (fun s1 m1 => exec r2 s1 m1 k)
  | Alt r1 r2 =>
      match exec r1 s m k with
      | Some x => Some x
      | None => exec r2 s m k
      end
  | Opt r1 =>
      match exec r1 s m k with
      | Some x => Some x
      | None => k s m
      end
  | Group n r1 =>
      exec r1 s m (fun s' m' => k s' ((n, consumed s s') :: m'))
  end.
End Matcher.

(** A run of literal characters. *)
Fixpoint lits (s : string) : regex :=
  match s with
  | EmptyString => Eps
  | String c s' => Seq (Lit c) (lits s')
  end.

(** [pattern.match(s)] : anchored at the start, any suffix may follow. *)
Definition match_ (r : regex) (s : string) : option captures :=
  exec r s [] (fun _ m => Some m).

End Re.

(** [int(text)] on the text of a group: decimal digits. *)
Definition digit_value (c : ascii) : Z := Z.of_nat (nat_of_ascii c) - 48.

Fixpoint int_digits (acc : Z) (s : string) : option Z :=
  match s with
  | EmptyString => Some acc
  | String c s' =>
      if Re.is_digit c then int_digits (10 * acc + digit_value c) s' else None
  end.

Definition int_of_str (text : option string) : result Z :=
  match text with
  | None => raise TypeError
  | Some EmptyString => raise (ValueError (InvalidIntLiteral ""))
  | Some s =>
      match int_digits 0 s with
      | Some z => ok z
      | None => raise (ValueError (InvalidIntLiteral s))
      end
  end.

(** ** sc2api.py: the profile-URL parser *)

Import Re.

(** [(?:\w+-\w+\/)] *)
Definition p1_locale : regex :=
  Seq (Plus is_word) (Seq (Lit "-") (Seq (Plus is_word) (Lit "/"))).

(** [profile\/([1-5])\/([1-2])\/(\d+)\/?] *)
Definition p1_ids : regex :=
  Seq (lits "profile/")
  (Seq (Group 1 (Class (in_range "1" "5"))) (Seq (Lit "/")
  (Seq (Group 2 (Class (in_range "1" "2"))) (Seq (Lit "/")
  (Seq (Group 3 (Plus is_digit)) (Opt (Lit "/"))))))).

(** [:\/\/starcraft2.com\/(?:\w+-\w+\/)?profile\/...] *)
Definition p1_host : regex :=
  Seq (lits "://starcraft2") (Seq AnyChar
  (Seq (lits "com/") (Seq (Opt p1_locale) p1_ids))).

(** [^https?:\/\/starcraft2.com\/(?:\w+-\w+\/)?profile\/([1-5])\/([1-2])\/(\d+)\/?] *)
Definition _p1 : regex :=
  Seq (lits "http") (Seq (Opt (Lit "s")) p1_host).

(** [\/profile/(\d+)\/([1-2])\/\w+\/?] *)
Definition p2_ids : regex :=
  Seq (lits "/profile/")
  (Seq (Group 2 (Plus is_digit)) (Seq (Lit "/")
  (Seq (Group 3 (Class (in_range "1" "2"))) (Seq (Lit "/")
  (Seq (Plus is_word) (Opt (Lit "/"))))))).

(** [:\/\/(eu|us).battle.net\/sc2\/\w+\/profile/...] *)
Definition p2_host : regex :=
  Seq (lits "://")
  (Seq (Group 1 (Alt (lits "eu") (lits "us"))) (Seq AnyChar
  (Seq (lits "battle") (Seq AnyChar (Seq (lits "net/sc2/")
  (Seq (Plus is_word) p2_ids)))))).

(** [^https?:\/\/(eu|us).battle.net\/sc2\/\w+\/profile/(\d+)\/([1-2])\/\w+\/?] *)
Definition _p2 : regex :=
  Seq (lits "http") (Seq (Opt (Lit "s")) p2_host).

(** [SC2API.parse_profile_url] *)
Definition parse_profile_url (url : string) : result (Server * Z * Z) :=
  match match_ _p1 url with
  | Some m =>
      rbind (int_of_str (group m 1)) (fun v =>
      rbind (ServerEnum.of_value v) (fun server =>
      rbind (int_of_str (group m 2)) (fun realmID =>
      rbind (int_of_str (group m 3)) (fun profileID =>
      ok (server, realmID, profileID)))))
  | None =>
      match match_ _p2 url with
      | Some m =>
          rbind (match group m 1 with
                 | Some g => ok (if String.eqb (Py.lower g) "eu" then 2 else 1)
                 | None => raise TypeError
                 end) (fun v =>
          rbind (ServerEnum.of_value v) (fun server =>
          rbind (int_of_str (group m 2)) (fun profileID =>
          rbind (int_of_str (group m 3)) (fun realmID =>
          ok (server, realmID, profileID)))))
      | None => raise (ValueError (InvalidProfileUrl url))
      end
  end.

(** ** Payloads, requests and the instance state

    A decoded JSON body is kept at the shape the code reads it: the keys
    read with [.get] at the top level are optional, nested records carry
    the keys the reconciliation loop reads, numbers already as [int].
    [datetime] values are kept as the timestamps they are built from. *)

Module Member.
Record t : Type := mk {
  id : Z;
  realm : Z;
  favoriteRace : option string;
  displayName : option string }.
End Member.

Module Team.
Record t : Type := mk {
  teamMembers : list Member.t;
  wins : Z;
  losses : Z;
  mmr : Z;
  joinTimestamp : Z }.
End Team.

Module Rank.
Record t : Type := mk { rank : Z; mmr : Z }.
End Rank.

Module Match.
Record t : Type := mk { type : string; decision : string; date : Z }.
End Match.

Record payload : Type := mkPayload {
  access_token : option string;
  league : option string;
  ranksAndPools : option (list Rank.t);
  ladderTeams : option (list Team.t);
  matches : option (list Match.t);
  request_datetime : option Z }.

(** [{}] *)
Definition empty_payload : payload := mkPayload None None None None None None.

(** [json['request_datetime'] = now] *)
Definition stamp (now : Z) (json : payload) : payload :=
  mkPayload (access_token json) (league json) (ranksAndPools json)
            (ladderTeams json) (matches json) (Some now).

(** The URL templates of the endpoints, with their parameters. *)
Inductive endpoint : Type :=
| CheckToken                                   (* eu.battle.net/oauth/check_token *)
| OAuthToken                                   (* eu.battle.net/oauth/token *)
| LadderUrl (server realmID profileID ladderID : Z)  (* sc2/profile/{}/{}/{}/ladder/{} *)
| MatchesUrl (server realmID profileID : Z).   (* sc2/legacy/profile/{}/{}/{}/matches *)

(** What goes with a GET besides the URL: [auth=] and [params=]. *)
Inductive request_args : Type :=
| TokenParam (token : option string)             (* params={'token': token} *)
| ClientCredentials (key secret : option string) (* BasicAuth + grant_type *)
| AccessToken (token : option string).           (* locale + access_token *)

Record request : Type := mkRequest { url : endpoint; kwargs : request_args }.

(** A response as the code observes it: the status, the outcome of
    [await resp.json()] ([None] when it raises [ContentTypeError]) and the
    reading of [datetime.now()] once the body is decoded. *)
Record http_response : Type := mkResponse {
  status : Z;
  body : option payload;
  completed : Z }.

Inductive log_msg : Type :=
| Text (s : string)
| MmrMismatch (api_url : endpoint) (mmr team_mmr : Z).

Inductive log_record : Type :=
| Warning (msg : log_msg)
| Info (msg : log_msg).

(** The attributes of an [SC2API] instance. *)
Record SC2API : Type := mkSC2API {
  _key : option string;
  _secret : option string;
  _access_token : option string;
  _access_token_checked : bool;
  request_count : Z;
  retry_count : Z }.

(** What the coroutines of one instance share: its attributes, the
    controller's configuration store and the log. *)
Record Mem : Type := mkMem {
  self : SC2API;
  config : gmap string (option string);
  log : list log_record }.

Definition set_self (f : SC2API -> SC2API) (m : Mem) : Mem :=
  mkMem (f (self m)) (config m) (log m).

Definition incr_request_count (s : SC2API) : SC2API :=
  mkSC2API (_key s) (_secret s) (_access_token s) (_access_token_checked s)
           (request_count s + 1) (retry_count s).

Definition incr_retry_count (s : SC2API) : SC2API :=
  mkSC2API (_key s) (_secret s) (_access_token s) (_access_token_checked s)
           (request_count s) (retry_count s + 1).

Definition set_checked (b : bool) (s : SC2API) : SC2API :=
  mkSC2API (_key s) (_secret s) (_access_token s) b
           (request_count s) (retry_count s).

Definition set_token (tok : option string) (s : SC2API) : SC2API :=
  mkSC2API (_key s) (_secret s) tok (_access_token_checked s)
           (request_count s) (retry_count s).

Definition set_config (key : string) (v : option string) (m : Mem) : Mem :=
  mkMem (self m) (<[key := v]> (config m)) (log m).

Definition add_log (r : log_record) (m : Mem) : Mem :=
  mkMem (self m) (config m) (log m ++ [r]).

(** The record yielded by [_get_ladder_data]. *)
Record ReconciledEntry : Type := mkEntry {
  e_mmr : Z;
  e_race : Race;
  e_games : Z;
  e_wins : Z;
  e_losses : Z;
  e_name : option string;
  e_joined : Z;
  e_ladder_id : Z;
  e_league : League }.

(** ** Coroutines

    An [async def] is a tree of its effects. [HttpGet], [Pause], [Acquire]
    on a held lock and [Yield] are the points where a coroutine may be
    suspended; everything between two of them runs without interruption. *)

Inductive prog (A : Type) : Type :=
| Ret (a : A)
| Throw (e : exn)
| Modify (f : Mem -> Mem) (k : prog A)
| Read (k : Mem -> prog A)
| HttpGet (rq : request) (k : http_response -> prog A)
| Pause (k : prog A)
| Acquire (k : prog A)
| Release (k : prog A)
| Yield (e : ReconciledEntry) (k : prog A).

Arguments Ret {A} a.
Arguments Throw {A} e.
Arguments Modify {A} f k.
Arguments Read {A} k.
Arguments HttpGet {A} rq k.
Arguments Pause {A} k.
Arguments Acquire {A} k.
Arguments Release {A} k.
Arguments Yield {A} e k.

Fixpoint bind {A B} (p : prog A) (f : A -> prog B) : prog B :=
  match p with
  | Ret a => f a
  | Throw e => Throw e
  | Modify g k => Modify g (bind k f)
  | Read k => Read (fun m => bind (k m) f)
  | HttpGet rq k => HttpGet rq (fun r => bind (k r) f)
  | Pause k => Pause (bind k f)
  | Acquire k => Acquire (bind k f)
  | Release k => Release (bind k f)
  | Yield e k => Yield e (bind k f)
  end.

(** [try: p finally: fin] *)
Fixpoint finally {A} (p : prog A) (fin : forall B, prog B -> prog B) : prog A :=
  match p with
  | Ret a => fin _ (Ret a)
  | Throw e => fin _ (Throw e)
  | Modify g k => Modify g (finally k fin)
  | Read k => Read (fun m => finally (k m) fin)
  | HttpGet rq k => HttpGet rq (fun r => finally (k r) fin)
  | Pause k => Pause (finally k fin)
  | Acquire k => Acquire (finally k fin)
  | Release k => Release (finally k fin)
  | Yield e k => Yield e (finally k fin)
  end.

Declare Scope prog_scope.
Delimit Scope prog_scope with prog.
Notation "x <- p ;; q" := (bind p (fun x => q))
  (at level 100, p at next level, right associativity) : prog_scope.
Notation "p ;;; q" := (bind p (fun _ => q))
  (at level 100, right associativity) : prog_scope.
Local Open Scope prog_scope.

Definition modify (f : Mem -> Mem) : prog unit := Modify f (Ret tt).
Definition read : prog Mem := Read (fun m => Ret m).
Definition http_get (rq : request) : prog http_response := HttpGet rq (fun r => Ret r).
Definition pause : prog unit := Pause (Ret tt).
Definition lift {A} (r : result A) : prog A :=
  match r with inl e => Throw e | inr a => Ret a end.

(** [async with lock: p] *)
Definition with_lock {A} (p : prog A) : prog A :=
  Acquire (finally p (fun B k => Release k)).

(** ** sc2api.py: the request executor *)

(** [range(n)] and [range(a, b)] *)
Definition py_range (a b : Z) : list Z :=
  map (fun i => a + Z.of_nat i) (seq 0 (Z.to_nat (b - a))).

(** The locals of [_perform_api_request] when its loop is left: the last
    value of [retries], [error], and [json, status] when they were bound. *)
Definition loop_exit : Type := (Z * string * option (payload * Z))%type.

(** The [for retries in range(10)] loop over the values still to come;
    [retries] is the value of the last iteration entered. *)
Fixpoint attempts (rq : request) (todo : list Z) (retries : Z) (error : string)
  : prog loop_exit :=
  match todo with
  | [] => Ret (retries, error, None)
  | r :: todo' =>
      resp <- http_get rq ;;
      modify (set_self incr_request_count) ;;;
      if status resp =? 504 then
        modify (set_self incr_retry_count) ;;;
        attempts rq todo' r "API timeout"                      (* continue *)
      else
        pause ;;;                                               (* await resp.json() *)
        match body resp with
        | None =>
            modify (set_self incr_retry_count) ;;;
            attempts rq todo' r "Unable to decode JSON!"       (* continue *)
        | Some json =>
            Ret (r, error, Some (stamp (completed resp) json, status resp)) (* break *)
        end
  end.

(** [SC2API._perform_api_request] *)
Definition _perform_api_request (rq : request) : prog (payload * Z) :=
  ex <- attempts rq (py_range 0 10) 0 "" ;;
  let '(retries, error, bound) := ex in
  if retries =? 9 then
    (if negb (String.eqb error "") then modify (add_log (Warning (Text error)))
     else Ret tt) ;;;
    Ret (empty_payload, 0)
  else
    match bound with
    | Some (json, status) => Ret (json, status)
    | None => Throw (NameError "json")
    end.

(** ** sc2api.py: the token manager *)

(** [SC2API.check_access_token] *)
Definition check_access_token (token : option string) : prog bool :=
  resp <- http_get (mkRequest CheckToken (TokenParam token)) ;;
  modify (set_self incr_request_count) ;;;
  modify (set_self (set_checked (status resp =? 200))) ;;;
  m <- read ;;
  Ret (_access_token_checked (self m)).

(** [SC2API.receive_new_access_token] *)
Definition receive_new_access_token : prog unit :=
  m <- read ;;
  r <- _perform_api_request
         (mkRequest OAuthToken (ClientCredentials (_key (self m)) (_secret (self m)))) ;;
  let '(data, status) := r in
  if negb (status =? 200) then Throw (InvalidApiResponse status)
  else
    modify (set_self (set_token (access_token data))) ;;;
    modify (set_self (set_checked true)) ;;;
    m <- read ;;
    modify (set_config "access_token" (_access_token (self m))) ;;;
    modify (add_log (Info (Text "New access token received."))).

(** [SC2API.get_access_token] *)
Definition get_access_token : prog (option string) :=
  with_lock (
    m <- read ;;
    refresh <-
      (if negb (Py.truthy (_access_token (self m))) then Ret true
       else if negb (_access_token_checked (self m)) then
              valid <- check_access_token (_access_token (self m)) ;;
              Ret (negb valid)
            else Ret false) ;;
    if (refresh : bool) then receive_new_access_token else Ret tt) ;;;
  m <- read ;;
  Ret (_access_token (self m)).

(** ** sc2api.py: ladder reconciliation *)

Declare Scope res_scope.
Delimit Scope res_scope with res.
Notation "x <- p ;; q" := (rbind p (fun x => q))
  (at level 100, p at next level, right associativity) : res_scope.
Notation "p ;;; q" := (rbind p (fun _ => q))
  (at level 100, right associativity) : res_scope.

(** [l[i]] with Python's negative indices. *)
Definition py_getitem {A} (l : list A) (i : Z) : result A :=
  let n := Z.of_nat (length l) in
  let j := if i <? 0 then i + n else i in
  if (0 <=? j) && (j <? n) then
    match l !! Z.to_nat j with
    | Some x => ok x
    | None => raise IndexError
    end
  else raise IndexError.

Definition py_assert (b : bool) : result unit :=
  if b then ok tt else raise AssertionError.

(** Subscripting or iterating a value that may be [None]. *)
Definition not_none {A} (o : option A) : result A :=
  match o with
  | Some a => ok a
  | None => raise TypeError
  end.

(** The locals of [_get_ladder_data] that live across iterations. *)
Record locals : Type := mkLocals { found_idx : Z; used : list Z }.

Section Reconcile.
Variables (api_url : endpoint) (realmID profileID ladderID : Z).
Variable league : League.
Variable data : payload.

(** The [try] block: the team at the claimed index. *)
Definition claimed_team (meta_data : Rank.t) (used : list Z)
  : result (Team.t * Member.t * list Z) :=
  (let idx := Rank.rank meta_data - 1 in
   teams <- not_none (ladderTeams data) ;;
   team <- py_getitem teams idx ;;
   player <- py_getitem (Team.teamMembers team) 0 ;;
   py_assert (Member.id player =? profileID) ;;;
   py_assert (Member.realm player =? realmID) ;;;
   ok (team, player, used ++ [idx]))%res.

(** The [for team_idx in range(found_idx + 1, len(...))] loop; [None]
    when it ends without [break]. *)
Fixpoint forward_scan (indices : list Z) (used : list Z)
  : result (option (Z * Team.t * Member.t)) :=
  match indices with
  | [] => ok None
  | team_idx :: rest =>
      (teams <- not_none (ladderTeams data) ;;
       team <- py_getitem teams team_idx ;;
       player <- py_getitem (Team.teamMembers team) 0 ;;
       if bool_decide (team_idx ∉ used)
          && (Member.id player =? profileID)
          && (Member.realm player =? realmID)
       then ok (Some (team_idx, team, player))
       else forward_scan rest used)%res
  end.

(** Lines 185-207: the team of one MMR entry. *)
Definition locate (loc : locals) (meta_data : Rank.t)
  : result (Team.t * Member.t * locals) :=
  let scan :=
    (teams <- not_none (ladderTeams data) ;;
     hit <- forward_scan
              (py_range (found_idx loc + 1) (Z.of_nat (length teams)))
              (used loc) ;;
     match hit with
     | Some (team_idx, team, player) =>
         ok (team, player, mkLocals team_idx (used loc ++ [team_idx]))
     | None => raise (NameError "r")   (* raise InvalidApiResponse(r.url) *)
     end)%res in
  match claimed_team meta_data (used loc) with
  | inr (team, player, used') => ok (team, player, mkLocals (found_idx loc) used')
  | inl IndexError => scan
  | inl AssertionError => scan
  | inl e => raise e
  end.

(** The body of [for meta_data in data.get('ranksAndPools')]. *)
Fixpoint ladder_loop (entries : list Rank.t) (loc : locals) : prog unit :=
  match entries with
  | [] => Ret tt
  | meta_data :: rest =>
      let mmr := Rank.mmr meta_data in
      found <- lift (locate loc meta_data) ;;
      let '(team, player, loc') := found in
      mmr <- (if negb (mmr =? Team.mmr team) then
                modify (add_log (Warning (MmrMismatch api_url mmr (Team.mmr team)))) ;;;
                Ret (Team.mmr team)
              else Ret mmr) ;;
      let race := Member.favoriteRace player in
      let games := Team.wins team + Team.losses team in
      race' <- lift (RaceEnum.get race) ;;
      Yield (mkEntry mmr race' games (Team.wins team) (Team.losses team)
                     (Member.displayName player) (Team.joinTimestamp team)
                     ladderID league)
            (ladder_loop rest loc')
  end.
End Reconcile.

(** [SC2API._get_ladder_data] *)
Definition _get_ladder_data (server : Server) (realmID profileID ladderID : Z)
  : prog unit :=
  let api_url := LadderUrl (ServerEnum.id server) realmID profileID ladderID in
  token <- get_access_token ;;
  r <- _perform_api_request (mkRequest api_url (AccessToken token)) ;;
  let '(data, status) := r in
  if negb (status =? 200) then Throw (InvalidApiResponse status)
  else
    league <- lift (LeagueEnum.get (league data)) ;;
    entries <- lift (not_none (ranksAndPools data)) ;;
    ladder_loop api_url realmID profileID ladderID league data entries
                (mkLocals (-1) []).

(** ** sc2api.py: match history *)

(** One element of the list returned by [_get_match_history]. *)
Record match_data : Type := mkMatchData { md_result : Result; md_datetime : Z }.

Fixpoint history_loop (scope : string) (ms : list Match.t) (match_history : list match_data)
  : result (list match_data) :=
  match ms with
  | [] => ok match_history
  | m :: rest =>
      if String.eqb (Match.type m) scope then
        (res <- ResultEnum.getitem (Match.decision m) ;;
         history_loop scope rest (match_history ++ [mkMatchData res (Match.date m)]))%res
      else history_loop scope rest match_history
  end.

(** [SC2API._get_match_history] *)
Definition _get_match_history (server : Server) (realmID profileID : Z) (scope : string)
  : prog (list match_data) :=
  let api_url := MatchesUrl (ServerEnum.id server) realmID profileID in
  token <- get_access_token ;;
  r <- _perform_api_request (mkRequest api_url (AccessToken token)) ;;
  let '(data, status) := r in
  if negb (status =? 200) then Throw (InvalidApiResponse status)
  else lift (history_loop scope (default [] (matches data)) []).

(** ** Running one coroutine to its end

    The network is a function from the number of requests sent before and
    the request to its response. *)

Definition network : Type := nat -> request -> http_response.

Record World : Type := mkWorld {
  mem : Mem;
  sent : list request;              (* the requests sent so far, oldest first *)
  locked : bool;                    (* [_access_token_lock] *)
  yielded : list ReconciledEntry }. (* what the generator has produced *)

Inductive outcome (A : Type) : Type :=
| Returned (a : A)
| Raised (e : exn)
| Blocked.                          (* waiting for a lock nobody will release *)

Arguments Returned {A} a.
Arguments Raised {A} e.
Arguments Blocked {A}.

Fixpoint run {A} (net : network) (p : prog A) (w : World) : outcome A * World :=
  match p with
  | Ret a => (Returned a, w)
  | Throw e => (Raised e, w)
  | Modify f k => run net k (mkWorld (f (mem w)) (sent w) (locked w) (yielded w))
  | Read k => run net (k (mem w)) w
  | HttpGet rq k =>
      run net (k (net (length (sent w)) rq))
          (mkWorld (mem w) (sent w ++ [rq]) (locked w) (yielded w))
  | Pause k => run net k w
  | Acquire k =>
      if locked w then (Blocked, w)
      else run net k (mkWorld (mem w) (sent w) true (yielded w))
  | Release k => run net k (mkWorld (mem w) (sent w) false (yielded w))
  | Yield e k => run net k (mkWorld (mem w) (sent w) (locked w) (yielded w ++ [e]))
  end.

(** The network that answers the n-th request with the n-th response of a
    script, and with [dflt] once the script is exhausted. *)
Definition scripted (script : list http_response) (dflt : http_response) : network :=
  fun n _ => nth n script dflt.

(** A fresh instance: [__init__] with the given configured token. *)
Definition fresh (token : option string) : World :=
  mkWorld (mkMem (mkSC2API None None token false 0 0) ∅ []) [] false [].

(** ** Vocabulary of the statements *)

(** The two transient failure classes of the executor. *)
Definition transient (r : http_response) : bool :=
  (status r =? 504) || match body r with None => true | Some _ => false end.

(** The value [error] takes on a transient response. *)
Definition error_text (r : http_response) : string :=
  if status r =? 504 then "API timeout" else "Unable to decode JSON!".

(** The world after [n] more requests [rq] of which [retries] were transient:
    only the two counters and the list of sent requests move. *)
Definition after_requests (n retries : nat) (rq : request) (w : World) : World :=
  let s := self (mem w) in
  mkWorld
    (mkMem (mkSC2API (_key s) (_secret s) (_access_token s) (_access_token_checked s)
                     (request_count s + Z.of_nat n) (retry_count s + Z.of_nat retries))
           (config (mem w)) (log (mem w)))
    (sent w ++ repeat rq n) (locked w) (yielded w).

Definition with_log (r : log_record) (w : World) : World :=
  mkWorld (add_log r (mem w)) (sent w) (locked w) (yielded w).

Definition set_locked (b : bool) (w : World) : World :=
  mkWorld (mem w) (sent w) b (yielded w).

(** What the executor leaves alone: the credentials, the token and its
    flag, the configuration store, the lock and the yielded entries. *)
Definition token_frame (w w' : World) : Prop :=
  _key (self (mem w')) = _key (self (mem w)) /\
  _secret (self (mem w')) = _secret (self (mem w)) /\
  _access_token (self (mem w')) = _access_token (self (mem w)) /\
  _access_token_checked (self (mem w')) = _access_token_checked (self (mem w)) /\
  config (mem w') = config (mem w) /\
  locked w' = locked w /\
  yielded w' = yielded w.

(** The request [receive_new_access_token] sends from a world. *)
Definition refresh_request (w : World) : request :=
  mkRequest OAuthToken (ClientCredentials (_key (self (mem w))) (_secret (self (mem w)))).

(** The request [check_access_token] sends from a world. *)
Definition check_request (w : World) : request :=
  mkRequest CheckToken (TokenParam (_access_token (self (mem w)))).

(** The world after [check_access_token] got the response [resp]. *)
Definition after_check (resp : http_response) (w : World) : World :=
  mkWorld (set_self (set_checked (status resp =? 200))
                    (set_self incr_request_count (mem w)))
          (sent w ++ [check_request w]) (locked w) (yielded w).

(** The world in which [get_access_token], called with the lock free,
    starts a refresh: at once when no token is set; after a failed check
    when a token is set that was not checked; never otherwise. *)
Definition refresh_start (net : network) (w : World) : option World :=
  if negb (Py.truthy (_access_token (self (mem w)))) then Some (set_locked true w)
  else if negb (_access_token_checked (self (mem w))) then
    let resp := net (length (sent w)) (check_request w) in
    if status resp =? 200 then None
    else Some (after_check resp (set_locked true w))
  else None.

Definition with_yield (e : ReconciledEntry) (w : World) : World :=
  mkWorld (mem w) (sent w) (locked w) (yielded w ++ [e]).

(** The first member of a team is the player looked for. *)
Definition is_target (realmID profileID : Z) (player : Member.t) : bool :=
  (Member.id player =? profileID) && (Member.realm player =? realmID).

(** The locals after the teams of a run of MMR entries were located: [used]
    then lists, in order, the index given to each entry. *)
Fixpoint locate_all (realmID profileID : Z) (data : payload)
         (entries : list Rank.t) (loc : locals) : result locals :=
  match entries with
  | [] => ok loc
  | meta_data :: rest =>
      match locate realmID profileID data loc meta_data with
      | inl e => raise e
      | inr (_, _, loc') => locate_all realmID profileID data rest loc'
      end
  end.

(** The snapshot of the concrete scenarios: one MMR entry of rank 1 and
    one team whose only member is player 42 of realm 1. *)
Definition scenario_snapshot (entry_mmr team_mmr : Z) : payload :=
  mkPayload None None
    (Some [Rank.mk 1 entry_mmr])
    (Some [Team.mk [Member.mk 42 1 (Some "Prot") None] 10 5 team_mmr 1000])
    None None.

(** A network on which the token request and then the ladder request are
    answered with status 200. *)
Definition scenario_network (snapshot : payload) : network :=
  scripted
    [mkResponse 200 (Some (mkPayload (Some "token") None None None None None)) 0;
     mkResponse 200 (Some snapshot) 0]
    (mkResponse 504 None 0).

(** Three teams of player 42 of realm 1, told apart by their MMR. *)
Definition three_teams_snapshot : payload :=
  mkPayload None None
    (Some [Rank.mk 3 3300; Rank.mk 7 3100])
    (Some [Team.mk [Member.mk 42 1 None None] 1 0 3100 10;
           Team.mk [Member.mk 42 1 None None] 2 0 3200 20;
           Team.mk [Member.mk 42 1 None None] 3 0 3300 30])
    None None.

(** The scenario with the MMR entry of rank 1 listed twice. *)
Definition twice_ranked_snapshot : payload :=
  mkPayload None None
    (Some [Rank.mk 1 3500; Rank.mk 1 3400])
    (Some [Team.mk [Member.mk 42 1 (Some "Prot") None] 10 5 3500 1000])
    None None.


(** ** What the patterns accept

[derives r u m m'] : the pattern [r] can consume exactly the text [u],
taking the captured groups from [m] to [m']. *)

Fixpoint all_chars (p : ascii -> bool) (s : string) : bool :=
match s with
| EmptyString => true
| String c s' => p c && all_chars p s'
end.

(** A run of one or more characters of a class. *)
Definition run_of (p : ascii -> bool) (s : string) : bool :=
match s with
| EmptyString => false
| String _ _ => all_chars p s
end.

(** The text does not go on with a character of the class. *)
Definition stops (p : ascii -> bool) (s : string) : bool :=
match s with
| EmptyString => true
| String c _ => negb (p c)
end.

Inductive derives : regex -> string -> captures -> captures -> Prop :=
| D_Eps m : derives Eps "" m m
| D_Lit c c' m :
    eqb_nocase c c' = true -> derives (Lit c) (String c' "") m m
| D_AnyChar c' m :
    Ascii.eqb c' "010"%char = false -> derives AnyChar (String c' "") m m
| D_Class p c' m :
    p c' = true -> derives (Class p) (String c' "") m m
| D_Plus p u m :
    run_of p u = true -> derives (Plus p) u m m
| D_Seq r1 r2 u1 u2 m m1 m2 :
    derives r1 u1 m m1 -> derives r2 u2 m1 m2 ->
    derives (Seq r1 r2) (u1 +:+ u2) m m2
| D_AltL r1 r2 u m m' : derives r1 u m m' -> derives (Alt r1 r2) u m m'
| D_AltR r1 r2 u m m' : derives r2 u m m' -> derives (Alt r1 r2) u m m'
| D_OptSome r u m m' : derives r u m m' -> derives (Opt r) u m m'
| D_OptNone r m : derives (Opt r) "" m m
| D_Group n r u m m' :
    derives r u m m' -> derives (Group n r) u m ((n, u) :: m').

(** The optional [\w+-\w+/] part of a generic profile URL. *)
Definition locale_part (loc : string) : Prop :=
loc = "" \/
exists w1 w2, loc = w1 +:+ "-" +:+ w2 +:+ "/" /\
              run_of is_word w1 = true /\ run_of is_word w2 = true.

(** The URLs of the first grammar, with what they encode: any case for
the letters, any character but a newline for the dot, an optional
locale, the server and realm digits, the digits of the profile id up to
the first character that is not a digit. *)
Definition generic_url (url : string) (server realm profile : Z) : Prop :=
exists (head : string) (dot : ascii) (com loc prof : string)
       (d1 d2 : ascii) (ds rest : string),
  url = head +:+ String dot (com +:+ loc +:+ prof
          +:+ String d1 (String "/" (String d2 (String "/" (ds +:+ rest))))) /\
  (Py.lower head = "http://starcraft2" \/ Py.lower head = "https://starcraft2") /\
  Ascii.eqb dot "010"%char = false /\
  Py.lower com = "com/" /\
  locale_part loc /\
  Py.lower prof = "profile/" /\
  in_range "1" "5" d1 = true /\ digit_value d1 = server /\
  in_range "1" "2" d2 = true /\ digit_value d2 = realm /\
  run_of is_digit ds = true /\ int_digits 0 ds = Some profile /\
  stops is_digit rest = true.

(** The URLs of the second grammar: [eu] or [us], then the profile id,
the realm digit and a name. The region is 2 for [eu] and 1 for [us]. *)
Definition region_url (url : string) (server realm profile : Z) : Prop :=
exists (head region : string) (dot1 : ascii) (battle : string) (dot2 : ascii)
       (net game prof ds : string) (d2 n1 : ascii) (rest : string),
  url = head +:+ region +:+ String dot1 (battle +:+ String dot2 (net +:+ game
          +:+ prof +:+ ds +:+ String "/" (String d2 (String "/" (String n1 rest))))) /\
  (Py.lower head = "http://" \/ Py.lower head = "https://") /\
  ((Py.lower region = "eu" /\ server = 2) \/ (Py.lower region = "us" /\ server = 1)) /\
  Ascii.eqb dot1 "010"%char = false /\
  Py.lower battle = "battle" /\
  Ascii.eqb dot2 "010"%char = false /\
  Py.lower net = "net/sc2/" /\
  run_of is_word game = true /\
  Py.lower prof = "/profile/" /\
  run_of is_digit ds = true /\ int_digits 0 ds = Some profile /\
  in_range "1" "2" d2 = true /\ digit_value d2 = realm /\
  is_word n1 = true.


(** ** model.py: the other methods of the enumerations

A method that reaches [return desc] with [desc] never assigned raises
[UnboundLocalError], a [NameError]. *)

Definition Result_value (r : Result) : Z :=
match r with
| ResultUnknown => 0 | Win => 1 | Loss => 2 | Tie => 3
end.

(** [Result.describe] *)
Definition Result_describe (r : Result) : string :=
let value := Result_value r in
if value =? 1 then "Win"
else if value =? 2 then "Loss"
else if value =? 3 then "Tie"
else "Unknown".

(** [Result.short] *)
Definition Result_short (r : Result) : string :=
let value := Result_value r in
if value =? 1 then "W"
else if value =? 2 then "L"
else if value =? 3 then "D"
else "U".

Definition Race_value (r : Race) : Z :=
match r with
| Random => 0 | Protoss => 1 | Terran => 2 | Zerg => 3
end.

(** [Race.describe] *)
Definition Race_describe (r : Race) : string :=
let value := Race_value r in
if value =? 1 then "Protoss"
else if value =? 2 then "Terran"
else if value =? 3 then "Zerg"
else "Random".

(** [Race.short] *)
Definition Race_short (r : Race) : string :=
let value := Race_value r in
if value =? 1 then "P"
else if value =? 2 then "T"
else if value =? 3 then "Z"
else "R".

(** [Server.describe] *)
Definition Server_describe (s : Server) : result string :=
let value := ServerEnum.value s in
if value =? 1 then ok "America"
else if value =? 2 then ok "Europe"
else if value =? 3 then ok "Korea"
else raise (NameError "desc").

(** [Server.short] *)
Definition Server_short (s : Server) : result string :=
let value := ServerEnum.value s in
if value =? 1 then ok "us"
else if value =? 2 then ok "eu"
else if value =? 3 then ok "kr"
else raise (NameError "desc").

(** [League.describe] *)
Definition League_describe (l : League) : result string :=
let value := LeagueEnum.value l in
if value =? -1 then ok "Unranked"
else if value =? 1 then ok "Bronze"
else if value =? 2 then ok "Silver"
else if value =? 3 then ok "Gold"
else if value =? 4 then ok "Platinum"
else if value =? 5 then ok "Diamond"
else if value =? 6 then ok "Master"
else if value =? 7 then ok "Grandmaster"
else raise (NameError "desc").

(** The world after [receive_new_access_token] stored the token of the
payload [data]: the token is set, marked as checked, written to the
configuration store, and the event is logged. *)
Definition after_refresh (data : payload) (w : World) : World :=
mkWorld
  (add_log (Info (Text "New access token received."))
     (set_config "access_token" (access_token data)
        (set_self (set_checked true)
           (set_self (set_token (access_token data)) (mem w)))))
  (sent w) (locked w) (yielded w).

(** [SC2API.read_config], given what the three calls of
[self._controller.get_config] return. *)
Definition read_config (api_key api_secret new_token : option string) (s : SC2API)
  : SC2API :=
let s := mkSC2API api_key api_secret (_access_token s) (_access_token_checked s)
                  (request_count s) (retry_count s) in
if negb (bool_decide (_access_token s = new_token)) then
  set_checked false (set_token new_token s)
else s.



(** * Properties *)

(** ** Enumerations *)

(** The first-letter rule of [Race.get], as a table. *)
Lemma Race_get_table (c : ascii) (s : string) :
  RaceEnum.get (Some (String c s)) =
    let l := Py.lower_ascii c in
    if Ascii.eqb l "r" then ok Random
    else if Ascii.eqb l "p" then ok Protoss
    else if Ascii.eqb l "t" then ok Terran
    else if Ascii.eqb l "z" then ok Zerg
    else raise (ValueError (UnknownRace (String c s))).
Proof.
  destruct c as [[] [] [] [] [] [] [] []]; reflexivity.
Qed.

(** The first-letter rule of [League.get], as a table: a code in [g] is
    Gold, so no code reaches Grandmaster. *)
Lemma League_get_table (c : ascii) (s : string) :
  LeagueEnum.get (Some (String c s)) =
    let l := Py.lower_ascii c in
    if Ascii.eqb l "u" then ok Unranked
    else if Ascii.eqb l "b" then ok Bronze
    else if Ascii.eqb l "s" then ok Silver
    else if Ascii.eqb l "g" then ok Gold
    else if Ascii.eqb l "p" then ok Platinum
    else if Ascii.eqb l "d" then ok Diamond
    else if Ascii.eqb l "m" then ok Master
    else raise (ValueError (UnknownLeague (String c s))).
Proof.
  destruct c as [[] [] [] [] [] [] [] []]; reflexivity.
Qed.

Lemma falsy_code (code : option string) :
  Py.truthy code = false -> code = None \/ code = Some "".
Proof.
  destruct code as [[|c s]|]; simpl; intros H; auto; discriminate.
Qed.

(** C5 (as stated, refuted): an unknown race or league code is not mapped
    to the sentinel; [Race.get] and [League.get] raise [ValueError], and
    the ladder fetch that meets such a code fails with it. *)
Lemma unknown_code_raises :
  RaceEnum.get (Some "Xelnaga") = raise (ValueError (UnknownRace "Xelnaga")) /\
  RaceEnum.get (Some "Xelnaga") <> ok Random /\
  LeagueEnum.get (Some "wood") = raise (ValueError (UnknownLeague "wood")) /\
  LeagueEnum.get (Some "wood") <> ok Unranked.
Proof.
  repeat split; try reflexivity; discriminate.
Qed.

(** C5 (amended): [Race.get] and [League.get] return the sentinel only
    for an absent or empty code; a non-empty code is mapped by the first
    letter, whatever its case, and raises [ValueError] when that letter
    starts no member. A server code is never defaulted: [Server(v)] raises
    for every [v] outside 0..3. *)
Theorem enum_codes_by_first_letter :
  (RaceEnum.get None = ok Random /\ RaceEnum.get (Some "") = ok Random) /\
  (LeagueEnum.get None = ok Unranked /\ LeagueEnum.get (Some "") = ok Unranked) /\
  (forall c s,
     RaceEnum.get (Some (String c s)) =
       let l := Py.lower_ascii c in
       if Ascii.eqb l "r" then ok Random
       else if Ascii.eqb l "p" then ok Protoss
       else if Ascii.eqb l "t" then ok Terran
       else if Ascii.eqb l "z" then ok Zerg
       else raise (ValueError (UnknownRace (String c s)))) /\
  (forall c s,
     LeagueEnum.get (Some (String c s)) =
       let l := Py.lower_ascii c in
       if Ascii.eqb l "u" then ok Unranked
       else if Ascii.eqb l "b" then ok Bronze
       else if Ascii.eqb l "s" then ok Silver
       else if Ascii.eqb l "g" then ok Gold
       else if Ascii.eqb l "p" then ok Platinum
       else if Ascii.eqb l "d" then ok Diamond
       else if Ascii.eqb l "m" then ok Master
       else raise (ValueError (UnknownLeague (String c s)))) /\
  (forall v,
     ServerEnum.of_value v =
       if (v <? 0) || (3 <? v)
       then raise (ValueError (NotAValidMember "Server" v))
       else ok (nth (Z.to_nat v) [ServerUnknown; America; Europe; Korea] ServerUnknown)).
Proof.
  split; [split; reflexivity|].
  split; [split; reflexivity|].
  split; [exact Race_get_table|].
  split; [exact League_get_table|].
  intros v. unfold ServerEnum.of_value.
  destruct (Z.ltb_spec v 0) as [Hneg|Hpos]; simpl.
  - destruct (Z.eqb_spec v 0); [lia|]. destruct (Z.eqb_spec v 1); [lia|].
    destruct (Z.eqb_spec v 2); [lia|]. destruct (Z.eqb_spec v 3); [lia|].
    reflexivity.
  - destruct (Z.ltb_spec 3 v) as [Hbig|Hsmall].
    + destruct (Z.eqb_spec v 0); [lia|]. destruct (Z.eqb_spec v 1); [lia|].
      destruct (Z.eqb_spec v 2); [lia|]. destruct (Z.eqb_spec v 3); [lia|].
      reflexivity.
    + assert (Hv : v = 0 \/ v = 1 \/ v = 2 \/ v = 3) by lia.
      destruct Hv as [->|[->|[->| ->]]]; reflexivity.
Qed.

(** ** Running coroutines *)

Lemma run_bind {A B} net (p : prog A) (f : A -> prog B) w :
  run net (bind p f) w =
    match run net p w with
    | (Returned a, w') => run net (f a) w'
    | (Raised e, w') => (Raised e, w')
    | (Blocked, w') => (Blocked, w')
    end.
Proof.
  revert w. induction p as [a|e|g k IH|k IH|rq k IH|k IH|k IH|k IH|e k IH];
    intros w; simpl; auto.
  destruct (locked w); auto.
Qed.

Lemma run_finally_release {A} net (p : prog A) w :
  run net (finally p (fun B k => Release k)) w =
    match run net p w with
    | (Blocked, w') => (Blocked, w')
    | (o, w') => (o, mkWorld (mem w') (sent w') false (yielded w'))
    end.
Proof.
  revert w. induction p as [a|e|g k IH|k IH|rq k IH|k IH|k IH|k IH|e k IH];
    intros w; simpl; auto.
  destruct (locked w); auto.
Qed.

(** ** The request executor *)

(** Equality of worlds, field by field. *)
Ltac world_eq :=
  repeat match goal with
    | |- mkWorld _ _ _ _ = mkWorld _ _ _ _ => f_equal
    | |- mkMem _ _ _ = mkMem _ _ _ => f_equal
    | |- mkSC2API _ _ _ _ _ _ = mkSC2API _ _ _ _ _ _ => f_equal
    end;
  try reflexivity; try lia.

Lemma after_requests_S n r rq w :
  after_requests (S n) (S r) rq w =
  after_requests n r rq
    (mkWorld (set_self incr_retry_count (set_self incr_request_count (mem w)))
             (sent w ++ [rq]) (locked w) (yielded w)).
Proof.
  unfold after_requests; simpl. rewrite <- app_assoc. simpl.
  world_eq.
Qed.

Lemma after_requests_1_0 rq w :
  after_requests 1 0 rq w =
  mkWorld (set_self incr_request_count (mem w)) (sent w ++ [rq]) (locked w) (yielded w).
Proof.
  unfold after_requests; simpl. destruct w as [[s c l] ? ? ?]; simpl.
  unfold set_self, incr_request_count; simpl. world_eq.
Qed.

(** One iteration of the retry loop on a transient response. *)
Lemma attempts_transient net rq r todo retries error w :
  transient (net (length (sent w)) rq) = true ->
  run net (attempts rq (r :: todo) retries error) w =
  run net (attempts rq todo r (error_text (net (length (sent w)) rq)))
      (after_requests 1 1 rq w).
Proof.
  intros Ht. simpl.
  assert (Hw : mkWorld (set_self incr_retry_count (set_self incr_request_count (mem w)))
                       (sent w ++ [rq]) (locked w) (yielded w)
               = after_requests 1 1 rq w).
  { unfold after_requests, set_self, incr_retry_count, incr_request_count; simpl.
    world_eq. }
  unfold transient in Ht. unfold error_text.
  destruct (status (net (length (sent w)) rq) =? 504) eqn:E; simpl.
  - rewrite Hw. reflexivity.
  - simpl in Ht. destruct (body (net (length (sent w)) rq)); [discriminate|].
    simpl. rewrite Hw. reflexivity.
Qed.

(** One iteration of the retry loop on any other response: [break]. *)
Lemma attempts_break net rq r todo retries error w json :
  status (net (length (sent w)) rq) <> 504 ->
  body (net (length (sent w)) rq) = Some json ->
  run net (attempts rq (r :: todo) retries error) w =
  (Returned (r, error,
             Some (stamp (completed (net (length (sent w)) rq)) json,
                   status (net (length (sent w)) rq))),
   after_requests 1 0 rq w).
Proof.
  intros Hs Hb. rewrite after_requests_1_0. simpl.
  destruct (Z.eqb_spec (status (net (length (sent w)) rq)) 504); [contradiction|].
  simpl. rewrite Hb. reflexivity.
Qed.

Lemma after_requests_add a b c d rq w :
  after_requests a b rq (after_requests c d rq w) =
  after_requests (c + a) (d + b) rq w.
Proof.
  unfold after_requests; simpl. rewrite <- app_assoc, repeat_app.
  world_eq.
Qed.

Lemma sent_after_requests n r rq w :
  length (sent (after_requests n r rq w)) = (length (sent w) + n)%nat.
Proof.
  unfold after_requests; simpl. rewrite length_app, repeat_length. reflexivity.
Qed.

(** [k+1] transient responses in a row: the loop goes on with what is
    left of the range. *)
Lemma attempts_failures net rq k :
  forall todo retries error w,
    (S k <= length todo)%nat ->
    (forall i, (i <= k)%nat -> transient (net (length (sent w) + i)%nat rq) = true) ->
    run net (attempts rq todo retries error) w =
    run net (attempts rq (drop (S k) todo) (nth k todo 0)
                      (error_text (net (length (sent w) + k)%nat rq)))
        (after_requests (S k) (S k) rq w).
Proof.
  induction k as [|k IH]; intros todo retries error w Hlen Htr.
  - destruct todo as [|r todo]; [simpl in Hlen; lia|].
    rewrite attempts_transient.
    + rewrite Nat.add_0_r. reflexivity.
    + specialize (Htr 0%nat). rewrite Nat.add_0_r in Htr. apply Htr. lia.
  - destruct todo as [|r todo]; [simpl in Hlen; lia|].
    rewrite attempts_transient.
    2:{ specialize (Htr 0%nat). rewrite Nat.add_0_r in Htr. apply Htr. lia. }
    rewrite (IH todo).
    + rewrite after_requests_add, sent_after_requests. simpl.
      replace (length (sent w) + 1 + k)%nat with (length (sent w) + S k)%nat by lia.
      reflexivity.
    + simpl in Hlen. lia.
    + intros i Hi. rewrite sent_after_requests.
      replace (length (sent w) + 1 + i)%nat with (length (sent w) + S i)%nat by lia.
      apply Htr. lia.
Qed.

Lemma range_10 : py_range 0 10 = [0; 1; 2; 3; 4; 5; 6; 7; 8; 9].
Proof. reflexivity. Qed.

(** The executor on ten transient responses: the empty payload, status 0,
    and a warning with the description of the last failure. *)
Lemma executor_exhausted net rq w :
  (forall i, (i < 10)%nat -> transient (net (length (sent w) + i)%nat rq) = true) ->
  run net (_perform_api_request rq) w =
  (Returned (empty_payload, 0),
   with_log (Warning (Text (error_text (net (length (sent w) + 9)%nat rq))))
            (after_requests 10 10 rq w)).
Proof.
  intros Htr. unfold _perform_api_request. rewrite run_bind.
  rewrite (attempts_failures net rq 9).
  - simpl. unfold error_text.
    destruct (status (net (length (sent w) + 9)%nat rq) =? 504); reflexivity.
  - simpl. lia.
  - intros i Hi. apply Htr. lia.
Qed.

(** The executor when the first response that is not transient is one of
    the first nine: its stamped payload and its status, no warning. *)
Lemma executor_answer net rq w k json :
  (k < 9)%nat ->
  (forall i, (i < k)%nat -> transient (net (length (sent w) + i)%nat rq) = true) ->
  status (net (length (sent w) + k)%nat rq) <> 504 ->
  body (net (length (sent w) + k)%nat rq) = Some json ->
  run net (_perform_api_request rq) w =
  (Returned (stamp (completed (net (length (sent w) + k)%nat rq)) json,
             status (net (length (sent w) + k)%nat rq)),
   after_requests (S k) k rq w).
Proof.
  intros Hk Htr Hs Hb. unfold _perform_api_request. rewrite run_bind.
  destruct k as [|k].
  - rewrite Nat.add_0_r in *. rewrite range_10.
    rewrite (attempts_break net rq _ _ _ _ _ json); auto.
  - rewrite (attempts_failures net rq k).
    2:{ simpl. lia. }
    2:{ intros i Hi. apply Htr. lia. }
    assert (Hd : exists r todo, drop (S k) (py_range 0 10) = r :: todo /\ r = Z.of_nat (S k)).
    { rewrite range_10. do 9 (destruct k as [|k]; [simpl; eauto|]). lia. }
    destruct Hd as (r & todo & Hd & Hr). rewrite Hd.
    rewrite (attempts_break net rq _ _ _ _ _ json);
      rewrite ?sent_after_requests; auto.
    rewrite after_requests_add.
    replace (S k + 1)%nat with (S (S k)) by lia.
    replace (S k + 0)%nat with (S k) by lia.
    destruct (Z.eqb_spec r 9); [lia|]. reflexivity.
Qed.

(** The executor when nine transient responses are followed by one that is
    not: the answer of the tenth attempt is dropped for the empty payload
    and status 0, with a warning for the ninth failure. *)
Lemma executor_tenth_answer_dropped net rq w json :
  (forall i, (i < 9)%nat -> transient (net (length (sent w) + i)%nat rq) = true) ->
  status (net (length (sent w) + 9)%nat rq) <> 504 ->
  body (net (length (sent w) + 9)%nat rq) = Some json ->
  run net (_perform_api_request rq) w =
  (Returned (empty_payload, 0),
   with_log (Warning (Text (error_text (net (length (sent w) + 8)%nat rq))))
            (after_requests 10 9 rq w)).
Proof.
  intros Htr Hs Hb. unfold _perform_api_request. rewrite run_bind.
  rewrite (attempts_failures net rq 8).
  2:{ simpl. lia. }
  2:{ intros i Hi. apply Htr. lia. }
  rewrite range_10. simpl drop. simpl nth.
  rewrite (attempts_break net rq _ _ _ _ _ json);
    rewrite ?sent_after_requests; auto.
  rewrite after_requests_add. simpl.
  unfold error_text.
  destruct (status (net (length (sent w) + 8)%nat rq) =? 504); reflexivity.
Qed.

(** C1: on nine 504 responses followed by a 200 response with a decodable
    body the executor returns the empty payload with status 0 and logs
    'API timeout', the retry counter at 9: the decoded payload of the tenth
    attempt is not what it yields. On ten 504 responses it returns the
    empty payload with status 0 and logs the warning, the retry counter at
    10. *)
Theorem executor_nine_timeouts_then_200
        (rq : request) (json : payload) (t : Z) (dflt : http_response) :
  run (scripted (repeat (mkResponse 504 None 0) 9 ++ [mkResponse 200 (Some json) t]) dflt)
      (_perform_api_request rq) (fresh None) =
    (Returned (empty_payload, 0),
     with_log (Warning (Text "API timeout")) (after_requests 10 9 rq (fresh None)))
  /\
  run (scripted (repeat (mkResponse 504 None 0) 10) dflt)
      (_perform_api_request rq) (fresh None) =
    (Returned (empty_payload, 0),
     with_log (Warning (Text "API timeout")) (after_requests 10 10 rq (fresh None))).
Proof.
  split.
  - rewrite (executor_tenth_answer_dropped _ _ _ json).
    + reflexivity.
    + intros i Hi. simpl.
      do 9 (destruct i as [|i]; [reflexivity|]). lia.
    + simpl. discriminate.
    + reflexivity.
  - rewrite executor_exhausted.
    + reflexivity.
    + intros i Hi. simpl.
      do 10 (destruct i as [|i]; [reflexivity|]). lia.
Qed.

Lemma token_frame_refl w : token_frame w w.
Proof. unfold token_frame; tauto. Qed.

Lemma token_frame_trans w1 w2 w3 :
  token_frame w1 w2 -> token_frame w2 w3 -> token_frame w1 w3.
Proof.
  unfold token_frame. intros (?&?&?&?&?&?&?) (?&?&?&?&?&?&?).
  repeat split; congruence.
Qed.

Lemma token_frame_after_requests n r rq w : token_frame w (after_requests n r rq w).
Proof. unfold token_frame, after_requests; simpl; tauto. Qed.

Lemma token_frame_with_log r w : token_frame w (with_log r w).
Proof. unfold token_frame, with_log; simpl; tauto. Qed.

Lemma last_cons {A} (l : list A) : forall a d, List.last (a :: l) d = List.last l a.
Proof.
  induction l as [|b l IH]; intros a d; [reflexivity|].
  change (List.last (a :: b :: l) d) with (List.last (b :: l) d).
  rewrite (IH b d), (IH b a). reflexivity.
Qed.

(** The retry loop always ends by returning, touches nothing but the
    counters, and leaves [json, status] unbound only after the last value
    of the range. *)
Lemma attempts_total net rq todo :
  forall retries error w,
  exists r e bound w',
    run net (attempts rq todo retries error) w = (Returned (r, e, bound), w') /\
    token_frame w w' /\ log (mem w') = log (mem w) /\
    (bound = None -> r = List.last todo retries).
Proof.
  induction todo as [|r0 todo IH]; intros retries error w.
  - exists retries, error, None, w. simpl. auto using token_frame_refl.
  - destruct (transient (net (length (sent w)) rq)) eqn:Ht.
    + rewrite attempts_transient by exact Ht.
      destruct (IH r0 (error_text (net (length (sent w)) rq)) (after_requests 1 1 rq w))
        as (r & e & b & w' & Hrun & Hfr & Hlog & Hb).
      exists r, e, b, w'. rewrite Hrun.
      split; [reflexivity|]. split; [|split; [exact Hlog|]].
      * eapply token_frame_trans; [apply token_frame_after_requests|exact Hfr].
      * intros Hn. rewrite (Hb Hn), last_cons. reflexivity.
    + unfold transient in Ht. apply orb_false_iff in Ht. destruct Ht as [Hs Hb].
      destruct (body (net (length (sent w)) rq)) as [json|] eqn:Hbody; [|discriminate].
      rewrite (attempts_break net rq _ _ _ _ _ json);
        [|intros E; rewrite E in Hs; discriminate|exact Hbody].
      eexists _, _, _, _. split; [reflexivity|].
      split; [apply token_frame_after_requests|]. split; [reflexivity|discriminate].
Qed.

(** The executor never raises and never blocks; it leaves the token, the
    configuration and the lock as they were. *)
Lemma executor_total net rq w :
  exists data status w',
    run net (_perform_api_request rq) w = (Returned (data, status), w') /\
    token_frame w w'.
Proof.
  unfold _perform_api_request. rewrite run_bind.
  destruct (attempts_total net rq (py_range 0 10) 0 "" w)
    as (r & e & b & w' & Hrun & Hfr & Hlog & Hb).
  rewrite Hrun.
  destruct (Z.eqb_spec r 9) as [->|Hr].
  - rewrite run_bind.
    destruct (negb (String.eqb e "")); simpl.
    + eexists _, _, _. split; [reflexivity|].
      eapply token_frame_trans; [exact Hfr|]. apply (token_frame_with_log _ w').
    + eexists _, _, _. split; [reflexivity|exact Hfr].
  - destruct b as [[json st]|].
    + simpl. eexists _, _, _. split; [reflexivity|exact Hfr].
    + exfalso. apply Hr. rewrite (Hb eq_refl). reflexivity.
Qed.

(** ** The token manager *)

Arguments _perform_api_request : simpl never.
Arguments receive_new_access_token : simpl never.

Lemma run_with_lock {A} net (p : prog A) w :
  locked w = false ->
  run net (with_lock p) w =
    match run net p (set_locked true w) with
    | (Blocked, w') => (Blocked, w')
    | (o, w') => (o, set_locked false w')
    end.
Proof.
  intros Hl. unfold with_lock. simpl. rewrite Hl.
  rewrite run_finally_release. reflexivity.
Qed.

Lemma run_read net w : run net read w = (Returned (mem w), w).
Proof. reflexivity. Qed.

Lemma run_modify net f w :
  run net (modify f) w = (Returned tt, mkWorld (f (mem w)) (sent w) (locked w) (yielded w)).
Proof. reflexivity. Qed.

Lemma run_check net w :
  run net (check_access_token (_access_token (self (mem w)))) w =
  (Returned (status (net (length (sent w)) (check_request w)) =? 200),
   after_check (net (length (sent w)) (check_request w)) w).
Proof. reflexivity. Qed.

Arguments check_access_token : simpl never.

(** [receive_new_access_token] on a refresh request that ends with a
    status other than 200. *)
Lemma receive_rejected net w data status w1 :
  run net (_perform_api_request (refresh_request w)) w = (Returned (data, status), w1) ->
  status <> 200 ->
  run net receive_new_access_token w = (Raised (InvalidApiResponse status), w1).
Proof.
  intros Hex Hst. unfold receive_new_access_token.
  rewrite run_bind, run_read, run_bind. fold (refresh_request w). rewrite Hex.
  destruct (Z.eqb_spec status 200); [contradiction|]. reflexivity.
Qed.

(** C8: when the refresh request of the token manager ends with a status
    other than 200, [receive_new_access_token] raises
    [InvalidApiResponse(status)]; [get_access_token] raises the same to
    its caller, in the world the one executor call left (the lock
    released): no second refresh is tried, and the token and the
    configuration store are what they were. *)
Theorem token_refresh_rejected net w0 w data code w1 :
  locked w0 = false ->
  refresh_start net w0 = Some w ->
  run net (_perform_api_request (refresh_request w)) w = (Returned (data, code), w1) ->
  code <> 200 ->
  run net receive_new_access_token w = (Raised (InvalidApiResponse code), w1) /\
  run net get_access_token w0 = (Raised (InvalidApiResponse code), set_locked false w1) /\
  _access_token (self (mem w1)) = _access_token (self (mem w0)) /\
  config (mem w1) = config (mem w0).
Proof.
  intros Hl Hstart Hex Hst.
  pose proof (receive_rejected net w data code w1 Hex Hst) as Hrecv.
  split; [exact Hrecv|].
  destruct (executor_total net (refresh_request w) w) as (d & s & w' & Hex' & Hfr).
  rewrite Hex in Hex'. injection Hex' as <- <- <-.
  destruct Hfr as (_ & _ & Htok & _ & Hcfg & _ & _).
  unfold refresh_start in Hstart.
  unfold get_access_token. rewrite run_bind, run_with_lock by exact Hl.
  rewrite run_bind, run_read. cbv beta iota.
  change (mem (set_locked true w0)) with (mem w0).
  rewrite run_bind.
  destruct (negb (Py.truthy (_access_token (self (mem w0))))) eqn:Etok.
  - injection Hstart as <-. cbn [run]. rewrite Hrecv.
    repeat split; assumption.
  - destruct (negb (_access_token_checked (self (mem w0)))) eqn:Echk; [|discriminate].
    destruct (status (net (length (sent w0)) (check_request w0)) =? 200) eqn:E200;
      [discriminate|].
    injection Hstart as <-.
    change (_access_token (self (mem w0)))
      with (_access_token (self (mem (set_locked true w0)))) at 1.
    rewrite run_bind, run_check.
    change (check_request (set_locked true w0)) with (check_request w0) in *.
    change (length (sent (set_locked true w0))) with (length (sent w0)).
    rewrite E200. cbn [run negb]. rewrite Hrecv.
    repeat split; assumption.
Qed.

Lemma token_refresh_rejected_witness :
  let net := scripted [mkResponse 401 (Some empty_payload) 0] (mkResponse 504 None 0) in
  let w1 := after_requests 1 0 (refresh_request (fresh None)) (set_locked true (fresh None)) in
  run net get_access_token (fresh None) =
    (Raised (InvalidApiResponse 401), set_locked false w1).
Proof.
  intros net w1.
  refine (proj1 (proj2 (token_refresh_rejected net (fresh None) (set_locked true (fresh None))
                          (stamp 0 empty_payload) 401 w1 _ _ _ _))).
  - reflexivity.
  - reflexivity.
  - reflexivity.
  - lia.
Defined.

(** ** Ladder reconciliation *)

Lemma py_getitem_nonneg {A} (l : list A) (i : Z) :
  0 <= i ->
  py_getitem l i = match l !! Z.to_nat i with Some x => ok x | None => raise IndexError end.
Proof.
  intros Hi. unfold py_getitem.
  destruct (Z.ltb_spec i 0); [lia|].
  destruct (Z.leb_spec 0 i); [|lia]. simpl.
  destruct (Z.ltb_spec i (Z.of_nat (length l))); [reflexivity|].
  rewrite lookup_ge_None_2 by lia. reflexivity.
Qed.

Lemma py_getitem_in_range {A} (l : list A) (i : Z) (x : A) :
  0 <= i -> l !! Z.to_nat i = Some x -> py_getitem l i = ok x.
Proof.
  intros Hi Hx. rewrite py_getitem_nonneg by exact Hi. rewrite Hx. reflexivity.
Qed.

Lemma py_getitem_past_end {A} (l : list A) (i : Z) :
  Z.of_nat (length l) <= i -> py_getitem l i = raise IndexError.
Proof.
  intros Hi. rewrite py_getitem_nonneg by lia.
  rewrite lookup_ge_None_2 by lia. reflexivity.
Qed.

(** [l[-1]] is the last element of a list that has one. *)
Lemma py_getitem_minus_1 {A} (l : list A) (x : A) :
  last l = Some x -> py_getitem l (-1) = ok x.
Proof.
  intros Hlast. rewrite last_lookup in Hlast.
  assert (Hlen : (0 < length l)%nat).
  { destruct l; [discriminate|simpl; lia]. }
  unfold py_getitem.
  change (-1 <? 0) with true. cbv iota.
  destruct (Z.leb_spec 0 (-1 + Z.of_nat (length l))); [|lia].
  destruct (Z.ltb_spec (-1 + Z.of_nat (length l)) (Z.of_nat (length l))); [|lia].
  simpl.
  replace (Z.to_nat (-1 + Z.of_nat (length l))) with (pred (length l)) by lia.
  rewrite Hlast. reflexivity.
Qed.

(** What [py_getitem] returns is an element of the list. *)
Lemma py_getitem_elem {A} (l : list A) (i : Z) (x : A) :
  py_getitem l i = ok x -> x ∈ l.
Proof.
  unfold py_getitem.
  destruct ((0 <=? _) && _); [|discriminate].
  destruct (l !! _) eqn:E; [|discriminate].
  intros [= <-]. eapply list_elem_of_lookup_2; eassumption.
Qed.

Lemma py_getitem_cases {A} (l : list A) (i : Z) :
  py_getitem l i = raise IndexError \/ exists x, py_getitem l i = ok x.
Proof.
  unfold py_getitem.
  destruct ((0 <=? _) && _); [|auto].
  destruct (l !! _); eauto.
Qed.

Lemma py_range_nil a b : b <= a -> py_range a b = [].
Proof.
  intros H. unfold py_range. replace (Z.to_nat (b - a)) with 0%nat by lia. reflexivity.
Qed.

Lemma py_range_cons a b : a < b -> py_range a b = a :: py_range (a + 1) b.
Proof.
  intros H. unfold py_range.
  replace (Z.to_nat (b - a)) with (S (Z.to_nat (b - (a + 1)))) by lia.
  simpl. f_equal; [lia|].
  rewrite <- seq_shift, map_map. apply map_ext. intros i. lia.
Qed.

Section ScanFacts.
Variables (realmID profileID : Z) (data : payload) (teams : list Team.t).
Hypothesis Hteams : ladderTeams data = Some teams.

Local Abbreviation scan := (forward_scan realmID profileID data).
Local Abbreviation target := (is_target realmID profileID).

(** One iteration of the forward scan over a team that has a member. *)
Lemma forward_scan_step j rest used t p :
  0 <= j ->
  teams !! Z.to_nat j = Some t ->
  Team.teamMembers t !! 0%nat = Some p ->
  scan (j :: rest) used =
    if bool_decide (j ∉ used) && target p then ok (Some (j, t, p))
    else scan rest used.
Proof.
  intros Hj Ht Hp. simpl. rewrite Hteams. simpl.
  rewrite (py_getitem_in_range teams j t Hj Ht). simpl.
  rewrite (py_getitem_in_range (Team.teamMembers t) 0 p); [|lia|exact Hp]. simpl.
  unfold is_target. rewrite andb_assoc. reflexivity.
Qed.

(** The scan stops at the first index from [a] on that is not consumed
    and whose team starts with the target. *)
Lemma forward_scan_hit used i t p :
  forall n a,
    Z.of_nat n = i - a -> 0 <= a ->
    i < Z.of_nat (length teams) ->
    teams !! Z.to_nat i = Some t ->
    Team.teamMembers t !! 0%nat = Some p ->
    i ∉ used -> target p = true ->
    (forall j, a <= j < i ->
       exists tj pj, teams !! Z.to_nat j = Some tj /\
                     Team.teamMembers tj !! 0%nat = Some pj /\
                     (j ∈ used \/ target pj = false)) ->
    scan (py_range a (Z.of_nat (length teams))) used = ok (Some (i, t, p)).
Proof.
  induction n as [|n IH]; intros a Hn Ha Hi Ht Hp Hfree Htarget Hbefore.
  - assert (a = i) as -> by lia.
    rewrite py_range_cons by lia.
    rewrite (forward_scan_step i _ used t p); auto.
    rewrite bool_decide_eq_true_2 by exact Hfree. rewrite Htarget. reflexivity.
  - rewrite py_range_cons by lia.
    destruct (Hbefore a) as (tj & pj & Htj & Hpj & Hskip); [lia|].
    rewrite (forward_scan_step a _ used tj pj); auto.
    assert (Hc : bool_decide (a ∉ used) && target pj = false).
    { destruct Hskip as [Hin| ->].
      - rewrite bool_decide_eq_false_2; [reflexivity|]. intros Hnot. exact (Hnot Hin).
      - apply andb_false_r. }
    rewrite Hc. apply IH; auto; try lia.
    intros j Hj. apply Hbefore. lia.
Qed.

(** The scan finds nothing when every team from [a] on is consumed or
    starts with another player. *)
Lemma forward_scan_miss used :
  forall n a,
    Z.of_nat (length teams) - a <= Z.of_nat n -> 0 <= a ->
    (forall j, a <= j < Z.of_nat (length teams) ->
       exists tj pj, teams !! Z.to_nat j = Some tj /\
                     Team.teamMembers tj !! 0%nat = Some pj /\
                     (j ∈ used \/ target pj = false)) ->
    scan (py_range a (Z.of_nat (length teams))) used = ok None.
Proof.
  induction n as [|n IH]; intros a Hn Ha Hall.
  - rewrite py_range_nil by lia. reflexivity.
  - destruct (Z.le_gt_cases (Z.of_nat (length teams)) a) as [Hend|Hmore].
    { rewrite py_range_nil by lia. reflexivity. }
    rewrite py_range_cons by lia.
    destruct (Hall a) as (tj & pj & Htj & Hpj & Hskip); [lia|].
    rewrite (forward_scan_step a _ used tj pj); auto.
    assert (Hc : bool_decide (a ∉ used) && target pj = false).
    { destruct Hskip as [Hin| ->].
      - rewrite bool_decide_eq_false_2; [reflexivity|]. intros Hnot. exact (Hnot Hin).
      - apply andb_false_r. }
    rewrite Hc. apply IH; auto; try lia.
    intros j Hj. apply Hall. lia.
Qed.

(** The fast path accepts exactly when the team at the claimed index
    starts with the target, whether or not the index was consumed. *)
Lemma claimed_team_accepts meta_data used t p :
  py_getitem teams (Rank.rank meta_data - 1) = ok t ->
  Team.teamMembers t !! 0%nat = Some p ->
  target p = true ->
  claimed_team realmID profileID data meta_data used =
    ok (t, p, used ++ [Rank.rank meta_data - 1]).
Proof.
  intros Ht Hp Htarget. unfold claimed_team. rewrite Hteams. simpl.
  rewrite Ht. simpl.
  rewrite (py_getitem_in_range (Team.teamMembers t) 0 p); [|lia|exact Hp]. simpl.
  unfold is_target in Htarget. apply andb_true_iff in Htarget.
  destruct Htarget as [-> ->]. reflexivity.
Qed.
End ScanFacts.

(** C10: with a non-empty teams list an MMR entry of rank 0 claims index
    -1, which Python reads as the last team, not as out of bounds; when
    that team starts with the target the fast path accepts it and -1 is
    appended to [used], without a forward scan and without a failure. *)
Theorem rank_zero_reads_last_team
        (realmID profileID : Z) (data : payload) (teams : list Team.t)
        (meta_data : Rank.t) (loc : locals) (t : Team.t) (p : Member.t) :
  ladderTeams data = Some teams ->
  Rank.rank meta_data = 0 ->
  last teams = Some t ->
  py_getitem teams (Rank.rank meta_data - 1) = ok t /\
  (Team.teamMembers t !! 0%nat = Some p ->
   is_target realmID profileID p = true ->
   claimed_team realmID profileID data meta_data (used loc) =
     ok (t, p, used loc ++ [-1]) /\
   locate realmID profileID data loc meta_data =
     ok (t, p, mkLocals (found_idx loc) (used loc ++ [-1]))).
Proof.
  intros Hteams Hrank Hlast.
  assert (Hget : py_getitem teams (Rank.rank meta_data - 1) = ok t).
  { rewrite Hrank. apply py_getitem_minus_1. exact Hlast. }
  split; [exact Hget|].
  intros Hp Htarget.
  pose proof (claimed_team_accepts realmID profileID data teams Hteams
                meta_data (used loc) t p Hget Hp Htarget) as Hc.
  rewrite Hrank in Hc. change (0 - 1) with (-1) in Hc.
  split; [exact Hc|].
  unfold locate. rewrite Hc. reflexivity.
Qed.

Lemma rank_zero_reads_last_team_witness :
  let other := Team.mk [Member.mk 7 1 None None] 1 1 3000 10 in
  let mine := Team.mk [Member.mk 42 1 (Some "Zerg") None] 10 5 3500 1000 in
  let data := mkPayload None None (Some [Rank.mk 0 3500]) (Some [other; mine]) None None in
  locate 1 42 data (mkLocals (-1) []) (Rank.mk 0 3500) =
    ok (mine, Member.mk 42 1 (Some "Zerg") None, mkLocals (-1) [-1]).
Proof.
  intros other mine data.
  refine (proj2 (proj2 (rank_zero_reads_last_team 1 42 data [other; mine] (Rank.mk 0 3500)
                   (mkLocals (-1) []) mine (Member.mk 42 1 (Some "Zerg") None) _ _ _) _ _)).
  - reflexivity.
  - reflexivity.
  - reflexivity.
  - reflexivity.
  - reflexivity.
Defined.

(** C4 (as stated, refuted): after the fast path matched the entry of rank
    3 at index 2, the highest index matched so far is 2; the entry of rank
    7 is out of bounds, and the forward scan accepts index 0, which is not
    greater than 2: the scan starts after the last index found by a scan,
    not after the highest index matched. *)
Lemma scan_restarts_below_fast_path_match :
  let data := three_teams_snapshot in
  let t0 := Team.mk [Member.mk 42 1 None None] 1 0 3100 10 in
  let t2 := Team.mk [Member.mk 42 1 None None] 3 0 3300 30 in
  locate 1 42 data (mkLocals (-1) []) (Rank.mk 3 3300) =
    ok (t2, Member.mk 42 1 None None, mkLocals (-1) [2]) /\
  claimed_team 1 42 data (Rank.mk 7 3100) [2] = raise IndexError /\
  locate 1 42 data (mkLocals (-1) [2]) (Rank.mk 7 3100) =
    ok (t0, Member.mk 42 1 None None, mkLocals 0 [2; 0]) /\
  ~ (2 < 0).
Proof.
  repeat split; try reflexivity. lia.
Qed.

(** C4 (amended): when the fast path fails with [IndexError] (claimed
    index out of range, or a claimed team without members) or with
    [AssertionError] (first member not the target), the scan runs over
    the indices above [found_idx], the index accepted by the latest forward
    scan (-1 before any); it accepts the first index that is not in [used]
    and whose team starts with the target, appends it to [used] and moves
    [found_idx] to it. A match of the fast path appends its index to
    [used] and leaves [found_idx] where it was. *)
Theorem forward_scan_from_scan_watermark
        (realmID profileID : Z) (data : payload) (teams : list Team.t)
        (loc : locals) (meta_data : Rank.t) :
  ladderTeams data = Some teams ->
  -1 <= found_idx loc ->
  (forall i t p,
     (claimed_team realmID profileID data meta_data (used loc) = raise IndexError \/
      claimed_team realmID profileID data meta_data (used loc) = raise AssertionError) ->
     found_idx loc < i < Z.of_nat (length teams) ->
     teams !! Z.to_nat i = Some t ->
     Team.teamMembers t !! 0%nat = Some p ->
     i ∉ used loc ->
     is_target realmID profileID p = true ->
     (forall j, found_idx loc < j < i ->
        exists tj pj, teams !! Z.to_nat j = Some tj /\
                      Team.teamMembers tj !! 0%nat = Some pj /\
                      (j ∈ used loc \/ is_target realmID profileID pj = false)) ->
     locate realmID profileID data loc meta_data =
       ok (t, p, mkLocals i (used loc ++ [i]))) /\
  (forall t p used',
     claimed_team realmID profileID data meta_data (used loc) = ok (t, p, used') ->
     used' = used loc ++ [Rank.rank meta_data - 1] /\
     locate realmID profileID data loc meta_data =
       ok (t, p, mkLocals (found_idx loc) used')).
Proof.
  intros Hteams Hmark. split.
  - intros i t p Hfail Hi Ht Hp Hfree Htarget Hbefore.
    assert (Hscan : forward_scan realmID profileID data
                      (py_range (found_idx loc + 1) (Z.of_nat (length teams)))
                      (used loc) = ok (Some (i, t, p))).
    { apply (forward_scan_hit realmID profileID data teams Hteams (used loc) i t p
               (Z.to_nat (i - (found_idx loc + 1)))); auto; try lia.
      intros j Hj. apply Hbefore. lia. }
    unfold locate. rewrite Hteams. simpl. rewrite Hscan. simpl.
    destruct Hfail as [-> | ->]; reflexivity.
  - intros t p used' Hc. split.
    + unfold claimed_team in Hc. rewrite Hteams in Hc. simpl in Hc.
      destruct (py_getitem teams (Rank.rank meta_data - 1)) as [e|t']; [discriminate|].
      simpl in Hc.
      destruct (py_getitem (Team.teamMembers t') 0) as [e|p']; [discriminate|].
      simpl in Hc.
      destruct (Member.id p' =? profileID); [|discriminate]. simpl in Hc.
      destruct (Member.realm p' =? realmID); [|discriminate]. simpl in Hc.
      injection Hc as _ _ <-. reflexivity.
    + unfold locate. rewrite Hc. reflexivity.
Qed.

Lemma forward_scan_from_scan_watermark_witness :
  locate 1 42 three_teams_snapshot (mkLocals 0 [2; 0]) (Rank.mk 7 3100) =
    ok (Team.mk [Member.mk 42 1 None None] 2 0 3200 20, Member.mk 42 1 None None,
        mkLocals 1 [2; 0; 1]).
Proof.
  refine (proj1 (forward_scan_from_scan_watermark 1 42 three_teams_snapshot _
                   (mkLocals 0 [2; 0]) (Rank.mk 7 3100) _ _)
                1 _ _ _ _ _ _ _ _ _).
  - reflexivity.
  - simpl; lia.
  - left; reflexivity.
  - simpl; lia.
  - reflexivity.
  - reflexivity.
  - simpl. intros H. apply list_elem_of_In in H. simpl in H. intuition lia.
  - reflexivity.
  - simpl. intros j Hj. lia.
Defined.

(** When every team starts with a player other than the target, neither
    step finds a team, and the statement [raise InvalidApiResponse(r.url)]
    fails on the unbound name [r]. *)
Lemma locate_no_match realmID profileID data teams loc meta_data :
  ladderTeams data = Some teams ->
  -1 <= found_idx loc ->
  (forall t, t ∈ teams ->
     exists p, Team.teamMembers t !! 0%nat = Some p /\
               is_target realmID profileID p = false) ->
  locate realmID profileID data loc meta_data = raise (NameError "r").
Proof.
  intros Hteams Hmark Hnone.
  assert (Hscan : forward_scan realmID profileID data
                    (py_range (found_idx loc + 1) (Z.of_nat (length teams)))
                    (used loc) = ok None).
  { apply (forward_scan_miss realmID profileID data teams Hteams (used loc)
             (Z.to_nat (Z.of_nat (length teams) - (found_idx loc + 1)))); try lia.
    intros j Hj.
    destruct (lookup_lt_is_Some_2 teams (Z.to_nat j)) as [tj Htj]; [lia|].
    destruct (Hnone tj) as (pj & Hpj & Hno).
    { eapply list_elem_of_lookup_2; eassumption. }
    exists tj, pj. auto. }
  unfold locate. rewrite Hteams. simpl. rewrite Hscan. simpl.
  unfold claimed_team. rewrite Hteams. simpl.
  destruct (py_getitem_cases teams (Rank.rank meta_data - 1)) as [-> | [t Ht]];
    [reflexivity|].
  rewrite Ht. simpl.
  destruct (Hnone t (py_getitem_elem _ _ _ Ht)) as (p & Hp & Hno).
  rewrite (py_getitem_in_range (Team.teamMembers t) 0 p); [|lia|exact Hp]. simpl.
  unfold is_target in Hno. apply andb_false_iff in Hno.
  destruct (Member.id p =? profileID); simpl.
  - destruct Hno as [Hno|Hno]; [discriminate|]. rewrite Hno. reflexivity.
  - reflexivity.
Qed.

(** C2: on a snapshot whose only team belongs to another player, the
    ladder-data fetch yields nothing and ends with [NameError] on the
    name [r] of line 207, not with [InvalidApiResponse]. *)
Theorem no_matching_team_raises_name_error :
  let net := scenario_network (scenario_snapshot 3500 3500) in
  fst (run net (_get_ladder_data Europe 1 43 7) (fresh None)) = Raised (NameError "r") /\
  yielded (snd (run net (_get_ladder_data Europe 1 43 7) (fresh None))) = [] /\
  (forall code,
     fst (run net (_get_ladder_data Europe 1 43 7) (fresh None))
       <> Raised (InvalidApiResponse code)).
Proof.
  intros net. split; [reflexivity|]. split; [reflexivity|].
  intros code H. vm_compute in H. discriminate H.
Qed.

(** C3: when two MMR entries carry the same rank and the team at that
    index starts with the target, the fast path accepts index 0 for both:
    [used] ends as [0; 0], and both yielded entries come from team 0. *)
Theorem claimed_index_assigned_twice :
  locate_all 1 42 twice_ranked_snapshot
             [Rank.mk 1 3500; Rank.mk 1 3400] (mkLocals (-1) []) =
    ok (mkLocals (-1) [0; 0]) /\
  ~ NoDup [0; 0] /\
  map e_games
      (yielded (snd (run (scenario_network twice_ranked_snapshot)
                         (_get_ladder_data Europe 1 42 7) (fresh None)))) =
    [15; 15].
Proof.
  split; [reflexivity|]. split; [|reflexivity].
  intros H. apply NoDup_cons_1_1 in H. apply H. left.
Qed.

Lemma run_lift {A} net (r : result A) w :
  run net (lift r) w = (match r with inl e => Raised e | inr a => Returned a end, w).
Proof. destruct r; reflexivity. Qed.

(** One iteration of the loop over the MMR entries, once the team is
    located and the race decoded. *)
Lemma ladder_loop_step net api_url realmID profileID ladderID league data
      meta_data rest loc t p loc' race w :
  locate realmID profileID data loc meta_data = ok (t, p, loc') ->
  RaceEnum.get (Member.favoriteRace p) = ok race ->
  run net (ladder_loop api_url realmID profileID ladderID league data
                       (meta_data :: rest) loc) w =
  run net (ladder_loop api_url realmID profileID ladderID league data rest loc')
      (with_yield
         (mkEntry (Team.mmr t) race (Team.wins t + Team.losses t)
                  (Team.wins t) (Team.losses t) (Member.displayName p)
                  (Team.joinTimestamp t) ladderID league)
         (if Rank.mmr meta_data =? Team.mmr t then w
          else with_log (Warning (MmrMismatch api_url (Rank.mmr meta_data) (Team.mmr t))) w)).
Proof.
  intros Hloc Hrace. cbn [ladder_loop]. unfold ok in Hloc, Hrace.
  rewrite run_bind, run_lift, Hloc. cbv beta iota.
  rewrite run_bind.
  destruct (Z.eqb_spec (Rank.mmr meta_data) (Team.mmr t)) as [Heq|Hne]; cbn [negb].
  - cbn [run]. rewrite run_bind, run_lift, Hrace. cbv beta iota.
    rewrite Heq. reflexivity.
  - rewrite run_bind, run_modify. cbn [run].
    rewrite run_bind, run_lift, Hrace. reflexivity.
Qed.

(** C6: once the team of an MMR entry is located and its mmr differs from
    the mmr of the entry, the warning is logged and the entry yielded
    carries the mmr of the team; on the scenario with entry mmr 3500 and
    team mmr 3600 the fetch yields one entry, of mmr 3600, and logs the
    warning. *)
Theorem team_mmr_wins
        net api_url realmID profileID ladderID league data
        meta_data rest loc t p loc' race w :
  locate realmID profileID data loc meta_data = ok (t, p, loc') ->
  RaceEnum.get (Member.favoriteRace p) = ok race ->
  Rank.mmr meta_data <> Team.mmr t ->
  (exists e,
     e_mmr e = Team.mmr t /\
     run net (ladder_loop api_url realmID profileID ladderID league data
                          (meta_data :: rest) loc) w =
     run net (ladder_loop api_url realmID profileID ladderID league data rest loc')
         (with_yield e
            (with_log (Warning (MmrMismatch api_url (Rank.mmr meta_data) (Team.mmr t)))
                      w))) /\
  (let w' := snd (run (scenario_network (scenario_snapshot 3500 3600))
                      (_get_ladder_data Europe 1 42 7) (fresh None)) in
   map e_mmr (yielded w') = [3600] /\
   Warning (MmrMismatch (LadderUrl 2 1 42 7) 3500 3600) ∈ log (mem w')).
Proof.
  intros Hloc Hrace Hne. split.
  - eexists. split; [|rewrite (ladder_loop_step _ _ _ _ _ _ _ _ _ _ t p loc' race) by assumption].
    2:{ destruct (Z.eqb_spec (Rank.mmr meta_data) (Team.mmr t)); [contradiction|].
        reflexivity. }
    reflexivity.
  - split; [reflexivity|].
    vm_compute. apply list_elem_of_In. right. left. reflexivity.
Qed.

Lemma team_mmr_wins_witness :
  let data := scenario_snapshot 3500 3600 in
  let t := Team.mk [Member.mk 42 1 (Some "Prot") None] 10 5 3600 1000 in
  let net := scenario_network data in
  let url := LadderUrl 2 1 42 7 in
  exists e,
    e_mmr e = 3600 /\
    run net (ladder_loop url 1 42 7 Unranked data [Rank.mk 1 3500] (mkLocals (-1) []))
        (fresh None) =
    run net (ladder_loop url 1 42 7 Unranked data [] (mkLocals (-1) [0]))
        (with_yield e (with_log (Warning (MmrMismatch url 3500 3600)) (fresh None))).
Proof.
  intros data t net url.
  refine (proj1 (team_mmr_wins net url 1 42 7 Unranked data (Rank.mk 1 3500) []
                   (mkLocals (-1) []) t (Member.mk 42 1 (Some "Prot") None)
                   (mkLocals (-1) [0]) Protoss (fresh None) _ _ _)).
  - reflexivity.
  - reflexivity.
  - simpl. lia.
Defined.


(** ** The profile-URL parser *)

Lemma append_cons (x : ascii) (a b : string) : String x a +:+ b = String x (a +:+ b).
Proof. reflexivity. Qed.

Lemma append_nil_l (b : string) : "" +:+ b = b.
Proof. reflexivity. Qed.

Lemma append_assoc (a b c : string) : (a +:+ b) +:+ c = a +:+ (b +:+ c).
Proof.
  induction a as [|x a IH]; [reflexivity|].
  rewrite !append_cons, IH. reflexivity.
Qed.

Lemma append_nil_r (a : string) : a +:+ "" = a.
Proof.
  induction a as [|x a IH]; [reflexivity|]. rewrite append_cons, IH. reflexivity.
Qed.

Lemma length_append (a b : string) :
  String.length (a +:+ b) = (String.length a + String.length b)%nat.
Proof.
  induction a as [|x a IH]; [reflexivity|]. rewrite append_cons. simpl.
  rewrite IH. reflexivity.
Qed.

Lemma lower_append (a b : string) : Py.lower (a +:+ b) = Py.lower a +:+ Py.lower b.
Proof.
  induction a as [|x a IH]; [reflexivity|]. rewrite append_cons. simpl.
  rewrite IH. reflexivity.
Qed.

(** A text whose lowering is [a +:+ b] splits accordingly. *)
Lemma lower_split (a b s : string) :
  Py.lower s = a +:+ b ->
  exists sa sb, s = sa +:+ sb /\ Py.lower sa = a /\ Py.lower sb = b.
Proof.
  revert s. induction a as [|x a IH]; intros s H.
  - exists "", s. auto.
  - destruct s as [|c s]; [discriminate|].
    rewrite append_cons in H. simpl in H. injection H as Hc Hs.
    destruct (IH s Hs) as (sa & sb & -> & Ha & Hb).
    exists (String c sa), sb. simpl. rewrite Hc, Ha. auto.
Qed.

Lemma take_append (u s : string) : take (String.length u) (u +:+ s) = u.
Proof.
  induction u as [|c u IH]; [destruct s; reflexivity|].
  rewrite append_cons. simpl. rewrite IH. reflexivity.
Qed.

Lemma consumed_append (u s : string) : consumed (u +:+ s) s = u.
Proof.
  unfold consumed. rewrite length_append.
  replace (String.length u + String.length s - String.length s)%nat
    with (String.length u) by lia.
  apply take_append.
Qed.

Lemma consumed_cons (c : ascii) (s : string) : consumed (String c s) s = String c "".
Proof. apply (consumed_append (String c "") s). Qed.

Lemma run_of_all p s : run_of p s = true -> all_chars p s = true.
Proof. destruct s; [discriminate|auto]. Qed.

Lemma run_of_cons p c s : p c = true -> all_chars p s = true -> run_of p (String c s) = true.
Proof. intros Hc Hs. simpl. rewrite Hc, Hs. reflexivity. Qed.

(** Only [/] lowers to [/], only [-] to [-], and a letter of a literal
    lowers from a word character. *)
Lemma lower_is_slash c : Py.lower_ascii c = "/"%char -> c = "/"%char.
Proof. destruct c as [[] [] [] [] [] [] [] []]; simpl; intros H; try reflexivity; discriminate H. Qed.

Lemma lower_is_dash c : Py.lower_ascii c = "-"%char -> c = "-"%char.
Proof. destruct c as [[] [] [] [] [] [] [] []]; simpl; intros H; try reflexivity; discriminate H. Qed.

Lemma eqb_nocase_slash c : eqb_nocase "/" c = true -> c = "/"%char.
Proof.
  unfold eqb_nocase. intros H. apply Ascii.eqb_eq in H.
  apply lower_is_slash. symmetry. exact H.
Qed.

Lemma eqb_nocase_dash c : eqb_nocase "-" c = true -> c = "-"%char.
Proof.
  unfold eqb_nocase. intros H. apply Ascii.eqb_eq in H.
  apply lower_is_dash. symmetry. exact H.
Qed.

(** *** The matcher finds only what the pattern derives *)

Lemma greedy_plus_sound {R} p s (k : string -> option R) x :
  greedy_plus p s k = Some x ->
  exists u s', s = u +:+ s' /\ run_of p u = true /\ k s' = Some x.
Proof.
  revert x. induction s as [|c s IH]; intros x H; simpl in H; [discriminate|].
  destruct (p c) eqn:Hc; [|discriminate].
  destruct (greedy_plus p s k) as [y|] eqn:Hg.
  - injection H as <-.
    destruct (IH y eq_refl) as (u & s' & -> & Hu & Hk).
    exists (String c u), s'. split; [reflexivity|]. split; [|exact Hk].
    apply run_of_cons; [exact Hc|apply run_of_all; exact Hu].
  - exists (String c ""), s. split; [reflexivity|]. split; [|exact H].
    simpl. rewrite Hc. reflexivity.
Qed.

Lemma exec_sound {R} r :
  forall s m (k : string -> captures -> option R) x,
    exec r s m k = Some x ->
    exists u s' m', s = u +:+ s' /\ derives r u m m' /\ k s' m' = Some x.
Proof.
  induction r as [|c| |p|p|r1 IH1 r2 IH2|r1 IH1 r2 IH2|r1 IH1|n r1 IH1];
    intros s m k x H; simpl in H.
  - exists "", s, m. split; [reflexivity|]. split; [constructor|exact H].
  - destruct s as [|c' s]; [discriminate|].
    destruct (eqb_nocase c c') eqn:E; [|discriminate].
    exists (String c' ""), s, m. split; [reflexivity|]. split; [constructor; exact E|exact H].
  - destruct s as [|c' s]; [discriminate|].
    destruct (Ascii.eqb c' "010") eqn:E; [discriminate|].
    exists (String c' ""), s, m. split; [reflexivity|]. split; [constructor; exact E|exact H].
  - destruct s as [|c' s]; [discriminate|].
    destruct (p c') eqn:E; [|discriminate].
    exists (String c' ""), s, m. split; [reflexivity|]. split; [constructor; exact E|exact H].
  - destruct (greedy_plus_sound p s _ x H) as (u & s' & -> & Hu & Hk).
    exists u, s', m. split; [reflexivity|]. split; [constructor; exact Hu|exact Hk].
  - destruct (IH1 _ _ _ _ H) as (u1 & s1 & m1 & -> & D1 & H1).
    destruct (IH2 _ _ _ _ H1) as (u2 & s2 & m2 & -> & D2 & H2).
    exists (u1 +:+ u2), s2, m2. split; [symmetry; apply append_assoc|].
    split; [econstructor; eassumption|exact H2].
  - destruct (exec r1 s m k) as [y|] eqn:E1.
    + injection H as <-. destruct (IH1 _ _ _ _ E1) as (u & s' & m' & -> & D & Hk).
      exists u, s', m'. split; [reflexivity|]. split; [apply D_AltL; exact D|exact Hk].
    + destruct (IH2 _ _ _ _ H) as (u & s' & m' & -> & D & Hk).
      exists u, s', m'. split; [reflexivity|]. split; [apply D_AltR; exact D|exact Hk].
  - destruct (exec r1 s m k) as [y|] eqn:E1.
    + injection H as <-. destruct (IH1 _ _ _ _ E1) as (u & s' & m' & -> & D & Hk).
      exists u, s', m'. split; [reflexivity|]. split; [apply D_OptSome; exact D|exact Hk].
    + exists "", s, m. split; [reflexivity|]. split; [apply D_OptNone|exact H].
  - destruct (IH1 _ _ _ _ H) as (u & s' & m' & -> & D & Hk).
    rewrite consumed_append in Hk.
    exists u, s', ((n, u) :: m'). split; [reflexivity|].
    split; [constructor; exact D|exact Hk].
Qed.

(** *** What the matcher finds on the texts of the two grammars *)

Lemma exec_lits {R} t :
  forall u s m (k : string -> captures -> option R),
    Py.lower u = Py.lower t -> exec (lits t) (u +:+ s) m k = k s m.
Proof.
  induction t as [|c t IH]; intros u s m k H.
  - destruct u; [reflexivity|discriminate].
  - destruct u as [|c' u]; [discriminate|].
    simpl in H. injection H as Hc Hu.
    rewrite append_cons. cbn [lits exec].
    unfold eqb_nocase. rewrite Hc, Ascii.eqb_refl. apply IH. exact Hu.
Qed.

Lemma greedy_plus_stops {R} p s (k : string -> option R) :
  stops p s = true -> greedy_plus p s k = None.
Proof.
  destruct s as [|c s]; [reflexivity|]. simpl. destruct (p c); [discriminate|reflexivity].
Qed.

(** A run followed by a character outside the class is taken whole when
    the rest of the pattern accepts what follows. *)
Lemma greedy_plus_longest {R} p u s (k : string -> option R) x :
  run_of p u = true -> stops p s = true -> k s = Some x ->
  greedy_plus p (u +:+ s) k = Some x.
Proof.
  intros Hu Hs Hk. destruct u as [|c u]; [discriminate|].
  simpl in Hu. apply andb_true_iff in Hu. destruct Hu as [Hc Hu].
  revert c Hc. induction u as [|c2 u IH]; intros c Hc.
  - rewrite append_cons, append_nil_l. cbn [greedy_plus]. rewrite Hc.
    rewrite greedy_plus_stops by exact Hs. exact Hk.
  - simpl in Hu. apply andb_true_iff in Hu. destruct Hu as [Hc2 Hu].
    rewrite append_cons. cbn [greedy_plus]. rewrite Hc.
    rewrite (IH Hu c2 Hc2). reflexivity.
Qed.



(** [p1_ids] on the server, realm and profile digits. *)
Lemma p1_ids_match prof d1 d2 ds rest m :
  Py.lower prof = "profile/" ->
  in_range "1" "5" d1 = true ->
  in_range "1" "2" d2 = true ->
  run_of is_digit ds = true ->
  stops is_digit rest = true ->
  exec p1_ids
       (prof +:+ String d1 (String "/" (String d2 (String "/" (ds +:+ rest)))))
       m (fun _ m' => Some m') =
  Some ((3%nat, ds) :: (2%nat, String d2 "") :: (1%nat, String d1 "") :: m).
Proof.
  intros Hprof Hd1 Hd2 Hds Hrest. unfold p1_ids. cbn [exec].
  rewrite exec_lits by exact Hprof.
  rewrite Hd1. change (eqb_nocase "/" "/") with true. cbv iota.
  rewrite Hd2. cbv iota.
  rewrite !consumed_cons.
  erewrite greedy_plus_longest; [reflexivity|exact Hds|exact Hrest|].
  rewrite consumed_append.
  destruct rest as [|c rest]; [reflexivity|].
  destruct (eqb_nocase "/" c); reflexivity.
Qed.

(** *** Reading a derivation back *)

Lemma derives_Seq_inv r1 r2 u m m2 :
  derives (Seq r1 r2) u m m2 ->
  exists u1 u2 m1, u = u1 +:+ u2 /\ derives r1 u1 m m1 /\ derives r2 u2 m1 m2.
Proof. inversion 1; subst; eauto 7. Qed.

Lemma derives_Lit_inv c u m m' :
  derives (Lit c) u m m' ->
  exists c', u = String c' "" /\ eqb_nocase c c' = true /\ m' = m.
Proof. inversion 1; subst; eauto. Qed.

Lemma derives_AnyChar_inv u m m' :
  derives AnyChar u m m' ->
  exists c', u = String c' "" /\ Ascii.eqb c' "010" = false /\ m' = m.
Proof. inversion 1; subst; eauto. Qed.

Lemma derives_Class_inv p u m m' :
  derives (Class p) u m m' ->
  exists c', u = String c' "" /\ p c' = true /\ m' = m.
Proof. inversion 1; subst; eauto. Qed.

Lemma derives_Plus_inv p u m m' :
  derives (Plus p) u m m' -> run_of p u = true /\ m' = m.
Proof. inversion 1; subst; eauto. Qed.

Lemma derives_Alt_inv r1 r2 u m m' :
  derives (Alt r1 r2) u m m' -> derives r1 u m m' \/ derives r2 u m m'.
Proof. inversion 1; subst; eauto. Qed.

Lemma derives_Opt_inv r u m m' :
  derives (Opt r) u m m' -> derives r u m m' \/ (u = "" /\ m' = m).
Proof. inversion 1; subst; eauto. Qed.

Lemma derives_Group_inv n r u m m' :
  derives (Group n r) u m m' -> exists m1, derives r u m m1 /\ m' = (n, u) :: m1.
Proof. inversion 1; subst; eauto. Qed.

Lemma derives_lits_inv t :
  forall u m m', derives (lits t) u m m' -> Py.lower u = Py.lower t /\ m' = m.
Proof.
  induction t as [|c t IH]; intros u m m' D; simpl in D.
  - inversion D; subst. auto.
  - apply derives_Seq_inv in D. destruct D as (u1 & u2 & m1 & -> & D1 & D2).
    apply derives_Lit_inv in D1. destruct D1 as (c' & -> & Hc & ->).
    destruct (IH _ _ _ D2) as [Hu ->]. split; [|reflexivity].
    rewrite append_cons, append_nil_l. simpl. rewrite Hu.
    unfold eqb_nocase in Hc. apply Ascii.eqb_eq in Hc. rewrite Hc. reflexivity.
Qed.

(** Splitting a text whose lowering is a literal, one character at a time. *)
Ltac peel H :=
  repeat match type of H with
    | Py.lower ?s = String _ _ =>
        let c := fresh "c" in
        let Hc := fresh "Hc" in
        destruct s as [|c s]; [discriminate H|];
        simpl in H; injection H as Hc H
    | Py.lower ?s = EmptyString =>
        destruct s; [clear H|discriminate H]
    end.

(** No word followed by a dash starts a text that starts like [profile/]. *)
Lemma dash_not_in_profile prof w a b :
  Py.lower prof = "profile/" ->
  run_of is_word w = true ->
  prof +:+ a = w +:+ String "-" b -> False.
Proof.
  intros Hprof Hw E. peel Hprof.
  rewrite !append_cons, append_nil_l in E.
  destruct w as [|x w]; [discriminate Hw|]. simpl in Hw.
  repeat match goal with
    | E : String ?c _ = String ?x ?w +:+ _ |- _ =>
        rewrite append_cons in E; injection E as <- E;
        destruct w as [|? w]
    | E : String ?c _ = "" +:+ String "-" _ |- _ =>
        rewrite append_nil_l in E; injection E as -> E
    end;
    repeat match goal with
      | H : Py.lower_ascii "-" = _ |- _ => discriminate H
      end.
  all: try (apply lower_is_slash in Hc6; subst; simpl in Hw;
            rewrite ?andb_false_r in Hw; discriminate Hw).
Qed.

Lemma p1_locale_absent {R} prof tail m (k : string -> captures -> option R) :
  Py.lower prof = "profile/" -> exec p1_locale (prof +:+ tail) m k = None.
Proof.
  intros Hprof. destruct (exec p1_locale (prof +:+ tail) m k) as [x|] eqn:E;
    [exfalso|reflexivity].
  apply exec_sound in E. destruct E as (u & s' & m' & Hs & D & _).
  unfold p1_locale in D.
  apply derives_Seq_inv in D. destruct D as (w & u2 & m1 & -> & Dw & D).
  apply derives_Plus_inv in Dw. destruct Dw as [Hw _].
  apply derives_Seq_inv in D. destruct D as (d & u3 & m2 & -> & Dd & _).
  apply derives_Lit_inv in Dd. destruct Dd as (c' & -> & Hc & _).
  apply eqb_nocase_dash in Hc. subst c'.
  rewrite !append_assoc, append_cons, append_nil_l in Hs.
  exact (dash_not_in_profile _ _ _ _ Hprof Hw Hs).
Qed.

Lemma p1_locale_present {R} w1 w2 tail m (k : string -> captures -> option R) x :
  run_of is_word w1 = true -> run_of is_word w2 = true ->
  k tail m = Some x ->
  exec p1_locale (w1 +:+ String "-" (w2 +:+ String "/" tail)) m k = Some x.
Proof.
  intros H1 H2 Hk. unfold p1_locale. cbn [exec].
  apply greedy_plus_longest; [exact H1|reflexivity|].
  change (eqb_nocase "-" "-") with true. cbv iota.
  apply greedy_plus_longest; [exact H2|reflexivity|].
  exact Hk.
Qed.

(** Everything of the first pattern after the scheme. *)
Lemma p1_host_match host dot com loc prof d1 d2 ds rest :
  Py.lower host = "://starcraft2" ->
  Ascii.eqb dot "010" = false ->
  Py.lower com = "com/" ->
  locale_part loc ->
  Py.lower prof = "profile/" ->
  in_range "1" "5" d1 = true ->
  in_range "1" "2" d2 = true ->
  run_of is_digit ds = true ->
  stops is_digit rest = true ->
  exec p1_host
       (host +:+ String dot (com +:+ loc +:+ prof
          +:+ String d1 (String "/" (String d2 (String "/" (ds +:+ rest))))))
       [] (fun _ m' => Some m') =
  Some [(3%nat, ds); (2%nat, String d2 ""); (1%nat, String d1 "")].
Proof.
  intros Hhost Hdot Hcom Hloc Hprof Hd1 Hd2 Hds Hrest.
  unfold p1_host. cbn [exec].
  rewrite exec_lits by exact Hhost. rewrite Hdot.
  rewrite exec_lits by exact Hcom.
  pose proof (p1_ids_match prof d1 d2 ds rest [] Hprof Hd1 Hd2 Hds Hrest) as Hids.
  destruct Hloc as [-> | (w1 & w2 & -> & Hw1 & Hw2)].
  - rewrite append_nil_l. rewrite p1_locale_absent by exact Hprof. exact Hids.
  - rewrite !append_assoc, !append_cons, !append_nil_l.
    rewrite (p1_locale_present w1 w2 _ _ _ _ Hw1 Hw2 Hids). reflexivity.
Qed.

(** [https?] in front of a pattern whose first literal is a colon. *)
Lemma scheme_match {R} (host_re : regex) scheme body m
      (k : string -> captures -> option R) x :
  Py.lower scheme = "http" \/ Py.lower scheme = "https" ->
  (forall c b, body = String c b -> Py.lower_ascii c = ":"%char) ->
  exec host_re body m k = Some x ->
  exec (Seq (lits "http") (Seq (Opt (Lit "s")) host_re)) (scheme +:+ body) m k = Some x.
Proof.
  intros Hscheme Hcolon Hhost. cbn [exec].
  destruct Hscheme as [Hs|Hs].
  - rewrite exec_lits by exact Hs.
    destruct body as [|c b]; [exact Hhost|].
    unfold eqb_nocase. rewrite (Hcolon c b eq_refl).
    change (Ascii.eqb (Py.lower_ascii "s") ":") with false. cbv iota. exact Hhost.
  - apply (lower_split "http" "s") in Hs. destruct Hs as (h4 & s1 & -> & H4 & H1).
    peel H1. rewrite append_assoc, append_cons, append_nil_l.
    rewrite exec_lits by exact H4.
    unfold eqb_nocase. rewrite Hc. change (Ascii.eqb (Py.lower_ascii "s") "s") with true.
    cbv iota. rewrite Hhost. reflexivity.
Qed.

Lemma starts_with_colon host t X c b :
  Py.lower host = String ":" t -> host +:+ X = String c b -> Py.lower_ascii c = ":"%char.
Proof.
  intros H E. destruct host as [|c0 host]; [discriminate|].
  simpl in H. injection H as Hc _.
  rewrite append_cons in E. injection E as <- _. exact Hc.
Qed.

(** Splitting the head of a URL into the scheme and the rest. *)
Lemma head_split head t :
  Py.lower head = "http" +:+ t \/ Py.lower head = "https" +:+ t ->
  exists scheme host,
    head = scheme +:+ host /\
    (Py.lower scheme = "http" \/ Py.lower scheme = "https") /\
    Py.lower host = t.
Proof.
  intros [H|H].
  - apply lower_split in H. destruct H as (a & b & -> & Ha & Hb). eauto 6.
  - apply lower_split in H. destruct H as (a & b & -> & Ha & Hb). eauto 6.
Qed.

(** The first pattern on a URL of the first grammar. *)
Lemma p1_match head dot com loc prof d1 d2 ds rest :
  (Py.lower head = "http://starcraft2" \/ Py.lower head = "https://starcraft2") ->
  Ascii.eqb dot "010" = false ->
  Py.lower com = "com/" ->
  locale_part loc ->
  Py.lower prof = "profile/" ->
  in_range "1" "5" d1 = true ->
  in_range "1" "2" d2 = true ->
  run_of is_digit ds = true ->
  stops is_digit rest = true ->
  match_ _p1
       (head +:+ String dot (com +:+ loc +:+ prof
          +:+ String d1 (String "/" (String d2 (String "/" (ds +:+ rest)))))) =
  Some [(3%nat, ds); (2%nat, String d2 ""); (1%nat, String d1 "")].
Proof.
  intros Hhead Hdot Hcom Hloc Hprof Hd1 Hd2 Hds Hrest.
  destruct (head_split head "://starcraft2" Hhead) as (scheme & host & -> & Hs & Hh).
  rewrite append_assoc. unfold match_, _p1.
  apply scheme_match; [exact Hs| |].
  - intros c b E. eapply starts_with_colon; eassumption.
  - apply p1_host_match; assumption.
Qed.





(** *** What a match of the two patterns says about the URL *)

Ltac invert_derives :=
  repeat match goal with
    | D : derives (Seq _ _) _ _ _ |- _ =>
        apply derives_Seq_inv in D; destruct D as (? & ? & ? & -> & ? & ?)
    | D : derives (lits _) _ _ _ |- _ =>
        apply derives_lits_inv in D; destruct D as [? ->]
    | D : derives (Lit _) _ _ _ |- _ =>
        apply derives_Lit_inv in D; destruct D as (? & -> & ? & ->)
    | D : derives AnyChar _ _ _ |- _ =>
        apply derives_AnyChar_inv in D; destruct D as (? & -> & ? & ->)
    | D : derives (Class _) _ _ _ |- _ =>
        apply derives_Class_inv in D; destruct D as (? & -> & ? & ->)
    | D : derives (Plus _) _ _ _ |- _ =>
        apply derives_Plus_inv in D; destruct D as [? ->]
    | D : derives (Group _ _) _ _ _ |- _ =>
        apply derives_Group_inv in D; destruct D as (? & ? & ->)
    | H : eqb_nocase "/" _ = true |- _ => apply eqb_nocase_slash in H; subst
    | H : eqb_nocase "-" _ = true |- _ => apply eqb_nocase_dash in H; subst
    end.

Ltac flatten_append :=
  repeat first [rewrite append_assoc | rewrite append_cons | rewrite append_nil_l].

Lemma scheme_derives_inv host_re u m m' :
  derives (Seq (lits "http") (Seq (Opt (Lit "s")) host_re)) u m m' ->
  exists scheme body,
    u = scheme +:+ body /\
    (Py.lower scheme = "http" \/ Py.lower scheme = "https") /\
    derives host_re body m m'.
Proof.
  intros D. invert_derives.
  match goal with D : derives (Opt _) _ _ _ |- _ =>
    apply derives_Opt_inv in D; destruct D as [D|[-> ->]] end.
  - invert_derives.
    match goal with
    | H4 : Py.lower ?h = Py.lower "http", Hs : eqb_nocase "s" ?c = true,
      D : derives host_re ?b _ _ |- _ =>
        exists (h +:+ String c ""), b; split; [flatten_append; reflexivity|];
        split; [right|exact D];
        rewrite lower_append, H4; simpl;
        unfold eqb_nocase in Hs; apply Ascii.eqb_eq in Hs; rewrite <- Hs; reflexivity
    end.
  - match goal with
    | H4 : Py.lower ?h = Py.lower "http", D : derives host_re ?b _ _ |- _ =>
        exists h, b; split; [flatten_append; reflexivity|];
        split; [left; exact H4|exact D]
    end.
Qed.

Lemma p1_locale_derives_inv loc m m' :
  derives (Opt p1_locale) loc m m' -> locale_part loc /\ m' = m.
Proof.
  intros D. apply derives_Opt_inv in D. destruct D as [D|[-> ->]].
  - unfold p1_locale in D. invert_derives. split; [|reflexivity].
    match goal with
    | H1 : run_of is_word ?w1 = true, H2 : run_of is_word ?w2 = true |- _ =>
        right; exists w1, w2; split; [flatten_append; reflexivity|]; split; assumption
    end.
  - split; [left|]; reflexivity.
Qed.

Lemma p1_ids_derives_inv u m m' :
  derives p1_ids u m m' ->
  exists prof d1 d2 ds tail,
    u = prof +:+ String d1 (String "/" (String d2 (String "/" (ds +:+ tail)))) /\
    Py.lower prof = "profile/" /\
    in_range "1" "5" d1 = true /\
    in_range "1" "2" d2 = true /\
    run_of is_digit ds = true /\
    m' = (3%nat, ds) :: (2%nat, String d2 "") :: (1%nat, String d1 "") :: m.
Proof.
  intros D. unfold p1_ids in D. invert_derives.
  match goal with
  | Hp : Py.lower ?prof = Py.lower "profile/",
    H1 : in_range "1" "5" ?d1 = true,
    H2 : in_range "1" "2" ?d2 = true,
    Hd : run_of is_digit ?ds = true,
    Ho : derives (Opt (Lit "/")) ?tail _ _ |- _ =>
      exists prof, d1, d2, ds, tail;
      apply derives_Opt_inv in Ho; destruct Ho as [Ho|[-> ->]];
      [invert_derives|];
      (split; [flatten_append; reflexivity|]);
      repeat (split; [assumption|]); reflexivity
  end.
Qed.

(** A derivation of the first pattern, read back. *)
Lemma p1_derives_inv u m :
  derives _p1 u [] m ->
  exists head dot com loc prof d1 d2 ds tail,
    u = head +:+ String dot (com +:+ loc +:+ prof
          +:+ String d1 (String "/" (String d2 (String "/" (ds +:+ tail))))) /\
    (Py.lower head = "http://starcraft2" \/ Py.lower head = "https://starcraft2") /\
    Ascii.eqb dot "010" = false /\
    Py.lower com = "com/" /\
    locale_part loc /\
    Py.lower prof = "profile/" /\
    in_range "1" "5" d1 = true /\
    in_range "1" "2" d2 = true /\
    run_of is_digit ds = true /\
    m = [(3%nat, ds); (2%nat, String d2 ""); (1%nat, String d1 "")].
Proof.
  intros D. unfold _p1 in D.
  apply scheme_derives_inv in D. destruct D as (scheme & body & -> & Hs & D).
  unfold p1_host in D. invert_derives.
  match goal with
  | Hh : Py.lower ?host = Py.lower "://starcraft2",
    Hdot : Ascii.eqb ?dot "010" = false,
    Hc : Py.lower ?com = Py.lower "com/",
    Hl : derives (Opt p1_locale) ?loc _ _,
    Hi : derives p1_ids _ _ _ |- _ =>
      apply p1_locale_derives_inv in Hl; destruct Hl as [Hl ->];
      apply p1_ids_derives_inv in Hi;
      destruct Hi as (prof & d1 & d2 & ds & tail & -> & Hprof & Hr1 & Hr2 & Hds & ->);
      exists (scheme +:+ host), dot, com, loc, prof, d1, d2, ds, tail;
      split; [flatten_append; reflexivity|];
      split; [rewrite lower_append, Hh; destruct Hs as [-> | ->]; [left|right]; reflexivity|];
      repeat (split; [assumption|]); reflexivity
  end.
Qed.

(** Every text splits into its longest prefix in a class and the rest. *)
Lemma span_class p s :
  exists a b, s = a +:+ b /\ all_chars p a = true /\ stops p b = true.
Proof.
  induction s as [|c s IH].
  - exists "", "". auto.
  - destruct (p c) eqn:Hc.
    + destruct IH as (a & b & -> & Ha & Hb).
      exists (String c a), b. simpl. rewrite Hc, Ha. auto.
    + exists "", (String c s). simpl. rewrite Hc. auto.
Qed.

Lemma all_chars_append p a b :
  all_chars p a = true -> all_chars p b = true -> all_chars p (a +:+ b) = true.
Proof.
  intros Ha Hb. induction a as [|c a IH]; [exact Hb|].
  rewrite append_cons. simpl in *. apply andb_true_iff in Ha. destruct Ha as [-> Ha].
  simpl. apply IH. exact Ha.
Qed.

Lemma run_of_append p u a :
  run_of p u = true -> all_chars p a = true -> run_of p (u +:+ a) = true.
Proof.
  intros Hu Ha. destruct u as [|c u]; [discriminate|].
  rewrite append_cons. change (all_chars p (String c (u +:+ a)) = true).
  apply (all_chars_append p (String c u) a); assumption.
Qed.

(** A match of the first pattern, read back: the URL is of the first
    grammar and the groups are its digits. *)
Lemma p1_match_inv url m :
  match_ _p1 url = Some m ->
  exists head dot com loc prof d1 d2 ds rest,
    url = head +:+ String dot (com +:+ loc +:+ prof
          +:+ String d1 (String "/" (String d2 (String "/" (ds +:+ rest))))) /\
    (Py.lower head = "http://starcraft2" \/ Py.lower head = "https://starcraft2") /\
    Ascii.eqb dot "010" = false /\
    Py.lower com = "com/" /\
    locale_part loc /\
    Py.lower prof = "profile/" /\
    in_range "1" "5" d1 = true /\
    in_range "1" "2" d2 = true /\
    run_of is_digit ds = true /\
    stops is_digit rest = true /\
    m = [(3%nat, ds); (2%nat, String d2 ""); (1%nat, String d1 "")].
Proof.
  intros H. pose proof H as H'. unfold match_ in H'.
  apply exec_sound in H'. destruct H' as (u & s' & m' & -> & D & [= ->]).
  apply p1_derives_inv in D.
  destruct D as (head & dot & com & loc & prof & d1 & d2 & ds & tail
                 & -> & Hh & Hdot & Hc & Hl & Hp & H1 & H2 & Hd & ->).
  destruct (span_class is_digit (tail +:+ s')) as (a & b & Hab & Ha & Hb).
  assert (Hurl :
    (head +:+ String dot (com +:+ loc +:+ prof
       +:+ String d1 (String "/" (String d2 (String "/" (ds +:+ tail)))))) +:+ s' =
    head +:+ String dot (com +:+ loc +:+ prof
       +:+ String d1 (String "/" (String d2 (String "/" ((ds +:+ a) +:+ b)))))).
  { flatten_append. rewrite Hab. reflexivity. }
  rewrite Hurl in H |- *.
  rewrite (p1_match head dot com loc prof d1 d2 (ds +:+ a) b) in H;
    auto using run_of_append.
  injection H as Hds.
  exists head, dot, com, loc, prof, d1, d2, (ds +:+ a), b.
  split; [reflexivity|].
  repeat (split; [assumption|]).
  split; [apply run_of_append; assumption|].
  split; [assumption|]. congruence.
Qed.

Lemma p2_ids_derives_inv u m m' :
  derives p2_ids u m m' ->
  exists prof ds d2 n1 tail,
    u = prof +:+ ds +:+ String "/" (String d2 (String "/" (String n1 tail))) /\
    Py.lower prof = "/profile/" /\
    run_of is_digit ds = true /\
    in_range "1" "2" d2 = true /\
    is_word n1 = true /\
    m' = (3%nat, String d2 "") :: (2%nat, ds) :: m.
Proof.
  intros D. unfold p2_ids in D. invert_derives.
  match goal with
  | Hp : Py.lower ?prof = Py.lower "/profile/",
    Hd : run_of is_digit ?ds = true,
    Hr : in_range "1" "2" ?d2 = true,
    Hn : run_of is_word ?name = true,
    Ho : derives (Opt (Lit "/")) ?tail _ _ |- _ =>
      destruct name as [|n1 name]; [discriminate Hn|];
      exists prof, ds, d2, n1, (name +:+ tail);
      apply derives_Opt_inv in Ho; destruct Ho as [Ho|[-> ->]];
      [invert_derives|];
      (split; [flatten_append; reflexivity|]);
      (split; [assumption|]); (split; [assumption|]); (split; [assumption|]);
      (split; [|reflexivity]);
      simpl in Hn; apply andb_true_iff in Hn; apply Hn
  end.
Qed.

(** A match of the second pattern, read back. *)
Lemma p2_match_inv url m :
  match_ _p2 url = Some m ->
  exists head region dot1 battle dot2 net game prof ds d2 n1 rest,
    url = head +:+ region +:+ String dot1 (battle +:+ String dot2 (net +:+ game
          +:+ prof +:+ ds +:+ String "/" (String d2 (String "/" (String n1 rest))))) /\
    (Py.lower head = "http://" \/ Py.lower head = "https://") /\
    (Py.lower region = "eu" \/ Py.lower region = "us") /\
    Ascii.eqb dot1 "010" = false /\
    Py.lower battle = "battle" /\
    Ascii.eqb dot2 "010" = false /\
    Py.lower net = "net/sc2/" /\
    run_of is_word game = true /\
    Py.lower prof = "/profile/" /\
    run_of is_digit ds = true /\
    in_range "1" "2" d2 = true /\
    is_word n1 = true /\
    m = [(3%nat, String d2 ""); (2%nat, ds); (1%nat, region)].
Proof.
  intros H. unfold match_ in H.
  apply exec_sound in H. destruct H as (u & s' & m' & -> & D & [= ->]).
  unfold _p2 in D.
  apply scheme_derives_inv in D. destruct D as (scheme & body & -> & Hs & D).
  unfold p2_host in D. invert_derives.
  match goal with
  | Hr : derives (Alt _ _) ?region _ ?m0 |- _ =>
      assert (Hregion : (Py.lower region = "eu" \/ Py.lower region = "us") /\ m0 = [])
        by (apply derives_Alt_inv in Hr; destruct Hr as [Hr|Hr];
            apply derives_lits_inv in Hr; destruct Hr as [Hr ->]; auto);
      clear Hr; destruct Hregion as [Hregion ->]
  end.
  match goal with
  | Hi : derives p2_ids _ _ _ |- _ =>
      apply p2_ids_derives_inv in Hi;
      destruct Hi as (prof & ds & d2 & n1 & tail & -> & Hprof & Hds & Hr2 & Hn1 & ->)
  end.
  match goal with
  | Hh : Py.lower ?host = Py.lower "://",
    Hd1 : Ascii.eqb ?dot1 "010" = false,
    Hb : Py.lower ?battle = Py.lower "battle",
    Hd2 : Ascii.eqb ?dot2 "010" = false,
    Hn : Py.lower ?net = Py.lower "net/sc2/",
    Hg : run_of is_word ?game = true,
    Hregion : Py.lower ?region = "eu" \/ _ |- _ =>
      exists (scheme +:+ host), region, dot1, battle, dot2, net, game, prof, ds, d2, n1,
             (tail +:+ s');
      split; [flatten_append; reflexivity|];
      split; [rewrite lower_append, Hh; destruct Hs as [-> | ->]; [left|right]; reflexivity|];
      repeat (split; [assumption|]); reflexivity
  end.
Qed.

(** No URL of the second grammar is matched by the first pattern: the
    order in which the two patterns are tried decides nothing. *)
Lemma region_url_not_p1 url server realm profile :
  region_url url server realm profile -> match_ _p1 url = None.
Proof.
  intros (head & region & dot1 & battle & dot2 & net & game & prof & ds & d2 & n1 & rest
          & Hurl & Hhead & Hregion & _).
  destruct (match_ _p1 url) as [m|] eqn:E; [exfalso|reflexivity].
  apply p1_match_inv in E.
  destruct E as (head1 & dot & com & loc & prof1 & e1 & e2 & es & rest1 & Hurl1 & Hhead1 & _).
  rewrite Hurl1 in Hurl. apply (f_equal Py.lower) in Hurl.
  rewrite !lower_append in Hurl.
  destruct Hhead1 as [H1|H1]; rewrite H1 in Hurl;
    destruct Hhead as [H2|H2]; rewrite H2 in Hurl;
    destruct Hregion as [[H3 _]|[H3 _]]; rewrite H3 in Hurl;
    repeat first [rewrite append_assoc in Hurl | rewrite append_cons in Hurl
                 | rewrite append_nil_l in Hurl];
    discriminate Hurl.
Qed.

Lemma in_range_digit a b d :
  in_range a b d = true ->
  Z.of_nat (nat_of_ascii a) - 48 <= digit_value d <= Z.of_nat (nat_of_ascii b) - 48.
Proof.
  unfold in_range, digit_value. intros H. apply andb_true_iff in H.
  destruct H as [H1 H2]. apply Nat.leb_le in H1, H2. lia.
Qed.

Lemma in_range_is_digit d :
  in_range "1" "5" d = true \/ in_range "1" "2" d = true -> is_digit d = true.
Proof.
  unfold in_range, is_digit. change (nat_of_ascii "1") with 49%nat.
  change (nat_of_ascii "5") with 53%nat. change (nat_of_ascii "2") with 50%nat.
  intros [H|H]; apply andb_true_iff in H; destruct H as [H1 H2];
    apply Nat.leb_le in H1, H2; apply andb_true_iff; split; apply Nat.leb_le; lia.
Qed.

Lemma int_of_str_digit d :
  is_digit d = true -> int_of_str (Some (String d "")) = ok (digit_value d).
Proof.
  intros H. unfold int_of_str. simpl. rewrite H. reflexivity.
Qed.

Lemma int_digits_total s :
  all_chars is_digit s = true -> forall acc, exists z, int_digits acc s = Some z.
Proof.
  induction s as [|c s IH]; intros H acc; simpl in *; [eauto|].
  apply andb_true_iff in H. destruct H as [-> H]. apply IH. exact H.
Qed.

Lemma int_of_str_run ds :
  run_of is_digit ds = true ->
  forall z, int_of_str (Some ds) = ok z <-> int_digits 0 ds = Some z.
Proof.
  intros H z. destruct ds as [|c ds]; [discriminate|].
  unfold int_of_str.
  destruct (int_digits_total (String c ds) H 0) as [z' Hz]. rewrite Hz.
  unfold ok. split; intros [= ->]; reflexivity.
Qed.

Lemma of_value_value (v : Z) (s : Server) :
  ServerEnum.of_value v = ok s <-> v = ServerEnum.value s.
Proof.
  unfold ServerEnum.of_value, ok.
  destruct (Z.eqb_spec v 0) as [->|H0]; [destruct s; split; intros H; try discriminate H; reflexivity|].
  destruct (Z.eqb_spec v 1) as [->|H1]; [destruct s; split; intros H; try discriminate H; reflexivity|].
  destruct (Z.eqb_spec v 2) as [->|H2]; [destruct s; split; intros H; try discriminate H; reflexivity|].
  destruct (Z.eqb_spec v 3) as [->|H3]; [destruct s; split; intros H; try discriminate H; reflexivity|].
  split; [discriminate|]. intros ->. destruct s; simpl in *; congruence.
Qed.

(** The parser on a match of the first pattern. *)
Lemma parse_on_p1 url d1 d2 ds :
  match_ _p1 url = Some [(3%nat, ds); (2%nat, String d2 ""); (1%nat, String d1 "")] ->
  in_range "1" "5" d1 = true ->
  in_range "1" "2" d2 = true ->
  run_of is_digit ds = true ->
  exists profile,
    int_digits 0 ds = Some profile /\
    parse_profile_url url =
      rbind (ServerEnum.of_value (digit_value d1))
            (fun server => ok (server, digit_value d2, profile)).
Proof.
  intros Hm H1 H2 Hd.
  destruct (int_digits_total ds (run_of_all _ _ Hd) 0) as [profile Hp].
  exists profile. split; [exact Hp|].
  unfold parse_profile_url. rewrite Hm. cbn [group Nat.eqb].
  rewrite (int_of_str_digit d1) by (apply in_range_is_digit; auto).
  cbn [rbind ok].
  destruct (ServerEnum.of_value (digit_value d1)) as [e|server]; [reflexivity|].
  cbn [rbind].
  rewrite (int_of_str_digit d2) by (apply in_range_is_digit; auto).
  cbn [rbind ok].
  apply (int_of_str_run ds Hd) in Hp. rewrite Hp. reflexivity.
Qed.

(** The parser on a match of the second pattern only. *)
Lemma parse_on_p2 url region ds d2 :
  match_ _p1 url = None ->
  match_ _p2 url = Some [(3%nat, String d2 ""); (2%nat, ds); (1%nat, region)] ->
  in_range "1" "2" d2 = true ->
  run_of is_digit ds = true ->
  exists profile,
    int_digits 0 ds = Some profile /\
    parse_profile_url url =
      ok (if String.eqb (Py.lower region) "eu" then Europe else America,
          digit_value d2, profile).
Proof.
  intros Hn Hm H2 Hd.
  destruct (int_digits_total ds (run_of_all _ _ Hd) 0) as [profile Hp].
  exists profile. split; [exact Hp|].
  unfold parse_profile_url. rewrite Hn, Hm. cbn [group Nat.eqb].
  apply (int_of_str_run ds Hd) in Hp. rewrite Hp.
  rewrite (int_of_str_digit d2) by (apply in_range_is_digit; auto).
  destruct (String.eqb (Py.lower region) "eu"); reflexivity.
Qed.







(** * Further properties of the code *)

(** ** Enumerations: names and codes *)

(** X1: [Race.get] reads back both the name and the one-letter form of
    every race. *)
Theorem Race_get_describe_short (r : Race) :
  RaceEnum.get (Some (Race_describe r)) = ok r /\
  RaceEnum.get (Some (Race_short r)) = ok r.
Proof. destruct r; split; reflexivity. Qed.

(** X2: [Result.get] reads back the name of every result, and the short
    form of every result but [Tie], whose short form ['D'] starts no
    member and is read as [Unknown]; it raises only on the empty string. *)
Theorem Result_get_describe_short :
  (forall r, ResultEnum.get (ResultEnum.AStr (Result_describe r)) = ok r) /\
  (forall r, ResultEnum.get (ResultEnum.AStr (Result_short r)) =
             ok (match r with Tie => ResultUnknown | _ => r end)) /\
  (forall v e, ResultEnum.get v = raise e -> v = ResultEnum.AStr "" /\ e = IndexError).
Proof.
  split; [intros r; destruct r; reflexivity|].
  split; [intros r; destruct r; reflexivity|].
  intros v e H. unfold ResultEnum.get in H. destruct v as [s|z|].
  - destruct s as [|c s]; [injection H as <-; auto|].
    destruct (first_letter_member ResultEnum.members (String c s)); discriminate H.
  - destruct (z =? 1); [discriminate|]. destruct (z =? -1); [discriminate|].
    destruct (z =? 0); discriminate.
  - discriminate.
Qed.

Lemma Result_get_describe_short_witness :
  ResultEnum.AStr "" = ResultEnum.AStr "" /\ IndexError = IndexError.
Proof.
  refine (proj2 (proj2 Result_get_describe_short) (ResultEnum.AStr "") IndexError _).
  reflexivity.
Defined.

(** X3: [League.describe] is shifted by one: it raises on [Bronze], whose
    value 0 meets no branch, and the name it gives for any league above
    [Bronze] is read back by [League.get] as the league one step below. *)
Theorem League_describe_shifted :
  (forall l, League_describe l = raise (NameError "desc") <-> l = Bronze) /\
  (forall l name l',
     League_describe l = ok name ->
     LeagueEnum.get (Some name) = ok l' ->
     l <> Unranked ->
     LeagueEnum.value l' = LeagueEnum.value l - 1).
Proof.
  split.
  - intros l. split; [|intros ->; reflexivity].
    destruct l; simpl; intros H; try discriminate H; reflexivity.
  - intros l name l' Hd Hg Hl.
    destruct l; try contradiction; try discriminate Hd;
      injection Hd as <-; vm_compute in Hg; injection Hg as <-; reflexivity.
Qed.

Lemma League_describe_shifted_witness :
  LeagueEnum.value Gold = LeagueEnum.value Platinum - 1.
Proof.
  refine (proj2 League_describe_shifted Platinum "Gold" Gold _ _ _).
  - reflexivity.
  - reflexivity.
  - discriminate.
Defined.

(** X4: no code is read as Grandmaster by [League.get]: a code in [g] is
    Gold, the first member of that letter. *)
Theorem League_get_never_Grandmaster (code : option string) :
  LeagueEnum.get code <> ok Grandmaster.
Proof.
  destruct code as [[|c s]|]; try discriminate.
  rewrite League_get_table. cbv zeta.
  repeat match goal with
    | |- (if ?b then _ else _) <> _ => destruct b; [discriminate|]
    end.
  discriminate.
Qed.

(** X5: [Server.describe] and [Server.short] raise on [Server.Unknown]
    and only there; on the other members each gives a name that no two
    members share. *)
Theorem Server_names :
  (forall s, Server_describe s = raise (NameError "desc") <-> s = ServerUnknown) /\
  (forall s, Server_short s = raise (NameError "desc") <-> s = ServerUnknown) /\
  (forall s1 s2 n, Server_short s1 = ok n -> Server_short s2 = ok n -> s1 = s2) /\
  (forall s1 s2 n, Server_describe s1 = ok n -> Server_describe s2 = ok n -> s1 = s2).
Proof.
  repeat split.
  - destruct s; simpl; intros H; try discriminate H; reflexivity.
  - intros ->; reflexivity.
  - destruct s; simpl; intros H; try discriminate H; reflexivity.
  - intros ->; reflexivity.
  - intros s1 s2 n H1 H2. destruct s1, s2; try reflexivity;
      vm_compute in H1, H2; congruence.
  - intros s1 s2 n H1 H2. destruct s1, s2; try reflexivity;
      vm_compute in H1, H2; congruence.
Qed.

Lemma Server_names_witness : Europe = Europe.
Proof.
  refine (proj1 (proj2 (proj2 Server_names)) Europe Europe "eu" _ _); reflexivity.
Defined.

(** ** The request executor: bounds and outcomes *)

(** What the retry loop does on any network: it sends [n] requests, at
    most one per value of the range, of which all but possibly the last
    were transient. *)
Lemma attempts_spec net rq todo :
  forall retries error w,
  exists r e bound n k,
    run net (attempts rq todo retries error) w =
      (Returned (r, e, bound), after_requests n k rq w) /\
    (n <= length todo)%nat /\
    match bound with
    | None => n = length todo /\ k = n /\ r = List.last todo retries
    | Some (json', st) =>
        (1 <= n)%nat /\ S k = n /\ st <> 504 /\ In r todo /\
        exists resp json,
          json' = stamp (completed resp) json /\ body resp = Some json /\
          status resp = st
    end.
Proof.
  induction todo as [|r0 todo IH]; intros retries error w.
  - exists retries, error, None, 0%nat, 0%nat. simpl.
    split; [|auto]. f_equal. unfold after_requests. simpl.
    destruct w as [[[] ? ?] ? ? ?]; simpl. rewrite app_nil_r, !Z.add_0_r. reflexivity.
  - destruct (transient (net (length (sent w)) rq)) eqn:Ht.
    + rewrite attempts_transient by exact Ht.
      destruct (IH r0 (error_text (net (length (sent w)) rq)) (after_requests 1 1 rq w))
        as (r & e & b & n & k & Hrun & Hn & Hb).
      exists r, e, b, (S n), (S k). rewrite Hrun, after_requests_add.
      split; [reflexivity|]. split; [simpl; lia|].
      destruct b as [[json' st]|].
      * destruct Hb as (H1 & H2 & H3 & H4 & H5).
        split; [lia|]. split; [lia|]. split; [exact H3|]. split; [right; exact H4|exact H5].
      * destruct Hb as (H1 & H2 & H3). split; [simpl; lia|]. split; [lia|].
        rewrite H3, last_cons. reflexivity.
    + unfold transient in Ht. apply orb_false_iff in Ht. destruct Ht as [Hs Hb].
      destruct (body (net (length (sent w)) rq)) as [json|] eqn:Hbody; [|discriminate].
      assert (Hst : status (net (length (sent w)) rq) <> 504)
        by (intros E; rewrite E in Hs; discriminate).
      rewrite (attempts_break net rq _ _ _ _ _ json Hst Hbody).
      eexists _, _, _, 1%nat, 0%nat. split; [reflexivity|]. split; [simpl; lia|].
      split; [lia|]. split; [reflexivity|]. split; [exact Hst|]. split; [left; reflexivity|].
      eexists _, json. split; [reflexivity|]. split; [exact Hbody|reflexivity].
Qed.

(** The requests of one call of the executor: the same request, at least
    once. *)
Lemma executor_sent net rq w :
  exists n, (1 <= n)%nat /\ sent (snd (run net (_perform_api_request rq) w)) = sent w ++ repeat rq n.
Proof.
  unfold _perform_api_request. rewrite run_bind.
  destruct (attempts_spec net rq (py_range 0 10) 0 "" w)
    as (r & e & b & n & k & Hrun & Hn & Hb).
  rewrite Hrun. exists n. split.
  { destruct b as [[json' st]|]; [destruct Hb as (? & _); assumption|].
    destruct Hb as (-> & _). rewrite range_10. simpl. lia. }
  destruct (r =? 9).
  - rewrite run_bind. destruct (negb (String.eqb e "")); reflexivity.
  - destruct b as [[json' st]|]; reflexivity.
Qed.




(** X8: when the first response that is not transient is one of the first
    nine, the executor returns its stamped payload with its status,
    whatever the status (a 404 is not retried), after counting one retry
    for each transient response before it and without logging. *)
Theorem executor_returns_first_answer net rq w k json :
  (k < 9)%nat ->
  (forall i, (i < k)%nat -> transient (net (length (sent w) + i)%nat rq) = true) ->
  status (net (length (sent w) + k)%nat rq) <> 504 ->
  body (net (length (sent w) + k)%nat rq) = Some json ->
  run net (_perform_api_request rq) w =
  (Returned (stamp (completed (net (length (sent w) + k)%nat rq)) json,
             status (net (length (sent w) + k)%nat rq)),
   after_requests (S k) k rq w).
Proof. exact (executor_answer net rq w k json). Qed.

Lemma executor_returns_first_answer_witness :
  let rq := mkRequest OAuthToken (ClientCredentials None None) in
  let net := scripted [mkResponse 200 None 1; mkResponse 504 None 2;
                       mkResponse 404 (Some empty_payload) 3]
                      (mkResponse 504 None 0) in
  run net (_perform_api_request rq) (fresh None) =
  (Returned (stamp 3 empty_payload, 404), after_requests 3 2 rq (fresh None)).
Proof.
  intros rq net.
  refine (executor_returns_first_answer net rq (fresh None) 2 empty_payload _ _ _ _).
  - lia.
  - intros i Hi. destruct i as [|[|i]]; [reflexivity|reflexivity|lia].
  - simpl. lia.
  - reflexivity.
Defined.

(** X9: on ten transient responses in a row, timeouts and undecodable
    bodies in any mix, the executor returns the empty payload with status
    0 and logs one warning, the description of the tenth failure. *)
Theorem executor_gives_up_after_ten net rq w :
  (forall i, (i < 10)%nat -> transient (net (length (sent w) + i)%nat rq) = true) ->
  run net (_perform_api_request rq) w =
  (Returned (empty_payload, 0),
   with_log (Warning (Text (error_text (net (length (sent w) + 9)%nat rq))))
            (after_requests 10 10 rq w)).
Proof. exact (executor_exhausted net rq w). Qed.

Lemma executor_gives_up_after_ten_witness :
  let rq := mkRequest OAuthToken (ClientCredentials None None) in
  let net := scripted (repeat (mkResponse 504 None 0) 9) (mkResponse 200 None 0) in
  run net (_perform_api_request rq) (fresh None) =
  (Returned (empty_payload, 0),
   with_log (Warning (Text "Unable to decode JSON!")) (after_requests 10 10 rq (fresh None))).
Proof.
  intros rq net.
  refine (executor_gives_up_after_ten net rq (fresh None) _).
  intros i Hi. do 10 (destruct i as [|i]; [reflexivity|]). lia.
Defined.

(** ** The token manager: the paths of [get_access_token] *)

Lemma unlock_lock w : locked w = false -> set_locked false (set_locked true w) = w.
Proof. destruct w as [m s l y]; simpl; intros ->; reflexivity. Qed.

(** [receive_new_access_token] on a refresh request that ends with status
    200. *)
Lemma receive_accepted net w data w1 :
  run net (_perform_api_request (refresh_request w)) w = (Returned (data, 200), w1) ->
  run net receive_new_access_token w = (Returned tt, after_refresh data w1).
Proof.
  intros Hex. unfold receive_new_access_token.
  rewrite run_bind, run_read, run_bind. fold (refresh_request w). rewrite Hex.
  reflexivity.
Qed.

Lemma run_return_token net w :
  run net (m <- read ;; Ret (_access_token (self m))) w =
  (Returned (_access_token (self (mem w))), w).
Proof. reflexivity. Qed.

(** The three ways through [get_access_token] when the lock is free. *)
Lemma get_access_token_cases net w :
  locked w = false ->
  (Py.truthy (_access_token (self (mem w))) = true /\
   _access_token_checked (self (mem w)) = true /\
   run net get_access_token w = (Returned (_access_token (self (mem w))), w)) \/
  (Py.truthy (_access_token (self (mem w))) = true /\
   _access_token_checked (self (mem w)) = false /\
   status (net (length (sent w)) (check_request w)) = 200 /\
   run net get_access_token w =
     (Returned (_access_token (self (mem w))),
      after_check (net (length (sent w)) (check_request w)) w)) \/
  (exists ws data st w1,
     refresh_start net w = Some ws /\
     run net (_perform_api_request (refresh_request ws)) ws = (Returned (data, st), w1) /\
     token_frame ws w1 /\
     ((st = 200 /\
       run net get_access_token w =
         (Returned (access_token data), set_locked false (after_refresh data w1))) \/
      (st <> 200 /\
       run net get_access_token w =
         (Raised (InvalidApiResponse st), set_locked false w1)))).
Proof.
  intros Hl.
  assert (Hrefresh : forall ws, refresh_start net w = Some ws ->
    exists data st w1,
      run net (_perform_api_request (refresh_request ws)) ws = (Returned (data, st), w1) /\
      token_frame ws w1 /\
      ((st = 200 /\
        run net receive_new_access_token ws = (Returned tt, after_refresh data w1)) \/
       (st <> 200 /\
        run net receive_new_access_token ws = (Raised (InvalidApiResponse st), w1)))).
  { intros ws _.
    destruct (executor_total net (refresh_request ws) ws) as (data & st & w1 & Hex & Hfr).
    exists data, st, w1. split; [exact Hex|]. split; [exact Hfr|].
    destruct (Z.eq_dec st 200) as [->|Hne].
    - left. split; [reflexivity|]. apply receive_accepted. exact Hex.
    - right. split; [exact Hne|]. eapply receive_rejected; eassumption. }
  assert (Hrun : run net get_access_token w =
    let (o, w') :=
      let (o, w') :=
        run net
          (refresh <-
             (if negb (Py.truthy (_access_token (self (mem w)))) then Ret true
              else if negb (_access_token_checked (self (mem w))) then
                     valid <- check_access_token
                                (_access_token (self (mem (set_locked true w)))) ;;
                     Ret (negb valid)
                   else Ret false) ;;
           if (refresh : bool) then receive_new_access_token else Ret tt)
          (set_locked true w) in
      match o with
      | Blocked => (Blocked, w')
      | _ => (o, set_locked false w')
      end in
    match o with
    | Returned _ => run net (m <- read ;; Ret (_access_token (self m))) w'
    | Raised e => (Raised e, w')
    | Blocked => (Blocked, w')
    end).
  { unfold get_access_token. rewrite run_bind, run_with_lock by exact Hl.
    rewrite run_bind, run_read. reflexivity. }
  rewrite Hrun. clear Hrun. rewrite run_bind.
  unfold refresh_start in Hrefresh.
  destruct (Py.truthy (_access_token (self (mem w)))) eqn:Etok; cbn [negb] in *.
  - destruct (_access_token_checked (self (mem w))) eqn:Echk; cbn [negb] in *.
    + left. split; [reflexivity|]. split; [reflexivity|].
      cbn [run]. rewrite run_return_token, (unlock_lock w Hl). reflexivity.
    + rewrite run_bind, run_check.
      change (check_request (set_locked true w)) with (check_request w) in *.
      change (length (sent (set_locked true w))) with (length (sent w)) in *.
      destruct (status (net (length (sent w)) (check_request w)) =? 200) eqn:E200.
      * right; left. split; [reflexivity|]. split; [reflexivity|].
        split; [apply Z.eqb_eq; exact E200|].
        cbn [run negb]. rewrite run_return_token.
        unfold after_check. cbn [set_locked mem sent locked yielded].
        rewrite E200. destruct w as [m s l y]. simpl in Hl. subst l. reflexivity.
      * right; right.
        destruct (Hrefresh _ eq_refl) as (data & st & w1 & Hex & Hfr & Hcase).
        eexists _, data, st, w1.
        split; [unfold refresh_start; rewrite ?Etok, ?Echk; cbn [negb]; cbv zeta;
                rewrite ?E200; reflexivity|].
        split; [exact Hex|].
        split; [exact Hfr|].
        cbn [run negb].
        destruct Hcase as [[-> Hrecv]|[Hne Hrecv]]; [left|right];
          (split; [assumption || reflexivity|]); rewrite Hrecv; reflexivity.
  - right; right.
    destruct (Hrefresh _ eq_refl) as (data & st & w1 & Hex & Hfr & Hcase).
    eexists _, data, st, w1.
        split; [unfold refresh_start; rewrite ?Etok, ?Echk; cbn [negb]; cbv zeta;
                rewrite ?E200; reflexivity|].
        split; [exact Hex|].
    split; [exact Hfr|].
    cbn [run].
    destruct Hcase as [[-> Hrecv]|[Hne Hrecv]]; [left|right];
      (split; [assumption || reflexivity|]); rewrite Hrecv; reflexivity.
Qed.

(** X10: with a token that is set and was checked, [get_access_token]
    returns it without sending any request and leaves the world as it
    was, the lock released. *)
Theorem cached_token_is_returned net w :
  locked w = false ->
  Py.truthy (_access_token (self (mem w))) = true ->
  _access_token_checked (self (mem w)) = true ->
  run net get_access_token w = (Returned (_access_token (self (mem w))), w).
Proof.
  intros Hl Htok Hchk.
  destruct (get_access_token_cases net w Hl)
    as [(_ & _ & H)|[(_ & Hc & _)|(ws & _ & _ & _ & Hs & _)]].
  - exact H.
  - rewrite Hchk in Hc. discriminate Hc.
  - unfold refresh_start in Hs. rewrite Htok, Hchk in Hs. discriminate Hs.
Qed.

Lemma cached_token_is_returned_witness :
  let w := mkWorld (mkMem (mkSC2API None None (Some "t") true 3 1) ∅ []) [] false [] in
  run (scripted [] (mkResponse 504 None 0)) get_access_token w = (Returned (Some "t"), w).
Proof.
  intros w.
  refine (cached_token_is_returned _ w _ _ _); reflexivity.
Defined.

(** X11: with a token that is set but was not checked, [get_access_token]
    sends one request to the check endpoint, carrying the token; on status
    200 it marks the token as checked and returns it, without asking for a
    new one. *)
Theorem unchecked_token_is_validated net w :
  locked w = false ->
  Py.truthy (_access_token (self (mem w))) = true ->
  _access_token_checked (self (mem w)) = false ->
  status (net (length (sent w)) (check_request w)) = 200 ->
  exists w',
    run net get_access_token w = (Returned (_access_token (self (mem w))), w') /\
    sent w' = sent w ++ [mkRequest CheckToken (TokenParam (_access_token (self (mem w))))] /\
    _access_token_checked (self (mem w')) = true /\
    _access_token (self (mem w')) = _access_token (self (mem w)) /\
    request_count (self (mem w')) = request_count (self (mem w)) + 1 /\
    config (mem w') = config (mem w) /\
    locked w' = false.
Proof.
  intros Hl Htok Hchk H200.
  destruct (get_access_token_cases net w Hl)
    as [(_ & Hc & _)|[(_ & _ & _ & H)|(ws & _ & _ & _ & Hs & _)]].
  - rewrite Hchk in Hc. discriminate Hc.
  - eexists. split; [exact H|]. unfold after_check. simpl. rewrite H200.
    repeat split; try reflexivity. exact Hl.
  - unfold refresh_start in Hs. rewrite Htok, Hchk in Hs. simpl in Hs.
    rewrite H200 in Hs. discriminate Hs.
Qed.

Lemma unchecked_token_is_validated_witness :
  let w := fresh (Some "t") in
  exists w',
    run (scripted [mkResponse 200 None 0] (mkResponse 504 None 0)) get_access_token w =
      (Returned (Some "t"), w') /\
    sent w' = [mkRequest CheckToken (TokenParam (Some "t"))] /\
    _access_token_checked (self (mem w')) = true /\
    _access_token (self (mem w')) = Some "t" /\
    request_count (self (mem w')) = 1 /\
    config (mem w') = ∅ /\
    locked w' = false.
Proof.
  intros w.
  refine (unchecked_token_is_validated _ w _ _ _ _); reflexivity.
Defined.

(** X12: when [get_access_token] has to refresh (no token, or a token
    whose check failed) and the refresh request ends with status 200, it
    returns the [access_token] of the payload, stores it as the token,
    marks it as checked, writes it to the configuration store under
    ['access_token'], logs the event and releases the lock. *)
Theorem refreshed_token_is_stored net w ws data w1 :
  locked w = false ->
  refresh_start net w = Some ws ->
  run net (_perform_api_request (refresh_request ws)) ws = (Returned (data, 200), w1) ->
  exists w',
    run net get_access_token w = (Returned (access_token data), w') /\
    _access_token (self (mem w')) = access_token data /\
    _access_token_checked (self (mem w')) = true /\
    config (mem w') = <["access_token" := access_token data]> (config (mem w)) /\
    log (mem w') = log (mem w1) ++ [Info (Text "New access token received.")] /\
    sent w' = sent w1 /\
    locked w' = false.
Proof.
  intros Hl Hs Hex.
  destruct (get_access_token_cases net w Hl)
    as [(Ht & Hc & _)|[(Ht & Hc & H200 & _)|(ws' & data' & st & w1' & Hs' & Hex' & Hfr & Hcase)]].
  - unfold refresh_start in Hs. rewrite Ht, Hc in Hs. discriminate Hs.
  - unfold refresh_start in Hs. rewrite Ht, Hc in Hs. simpl in Hs.
    rewrite H200 in Hs. discriminate Hs.
  - rewrite Hs in Hs'. injection Hs' as <-.
    rewrite Hex in Hex'. injection Hex' as <- <- <-.
    destruct Hcase as [[_ Hrun]|[Hne _]]; [|contradiction].
    eexists. split; [exact Hrun|]. unfold after_refresh. simpl.
    destruct Hfr as (_ & _ & _ & _ & Hcfg & _ & _).
    repeat split; try reflexivity.
    rewrite Hcfg. unfold refresh_start in Hs.
    destruct (negb (Py.truthy (_access_token (self (mem w))))).
    + injection Hs as <-. reflexivity.
    + destruct (negb (_access_token_checked (self (mem w)))); [|discriminate Hs].
      simpl in Hs.
      destruct (status (net (length (sent w)) (check_request w)) =? 200);
        [discriminate Hs|].
      injection Hs as <-. reflexivity.
Qed.

Lemma refreshed_token_is_stored_witness :
  let tok := mkPayload (Some "T") None None None None None in
  let net := scripted [mkResponse 200 (Some tok) 0] (mkResponse 504 None 0) in
  exists w',
    run net get_access_token (fresh None) = (Returned (Some "T"), w') /\
    _access_token (self (mem w')) = Some "T" /\
    _access_token_checked (self (mem w')) = true /\
    config (mem w') = <["access_token" := Some "T"]> ∅ /\
    log (mem w') = [Info (Text "New access token received.")] /\
    sent w' = [refresh_request (fresh None)] /\
    locked w' = false.
Proof.
  intros tok net.
  refine (refreshed_token_is_stored net (fresh None) (set_locked true (fresh None))
            (stamp 0 tok)
            (after_requests 1 0 (refresh_request (fresh None)) (set_locked true (fresh None)))
            _ _ _); reflexivity.
Defined.

(** What holds whenever [get_access_token] returns: the lock is free, the
    value returned is the token of the instance, and it is marked as
    checked. *)
Lemma get_access_token_returned net w tok w' :
  locked w = false ->
  run net get_access_token w = (Returned tok, w') ->
  locked w' = false /\
  _access_token (self (mem w')) = tok /\
  _access_token_checked (self (mem w')) = true.
Proof.
  intros Hl Hrun.
  destruct (get_access_token_cases net w Hl)
    as [(Ht & Hc & H)|[(Ht & Hc & H200 & H)|(ws & data & st & w1 & Hs & Hex & Hfr & Hcase)]].
  - rewrite H in Hrun. injection Hrun as <- <-. auto.
  - rewrite H in Hrun. injection Hrun as <- <-.
    unfold after_check. simpl. rewrite H200. auto.
  - destruct Hcase as [[_ H]|[_ H]]; rewrite H in Hrun; [|discriminate Hrun].
    injection Hrun as <- <-. unfold after_refresh. simpl. auto.
Qed.

(** X13: once [get_access_token] has returned a token that is not empty,
    calling it again, on any network, returns the same token without
    sending a request or changing anything. *)
Theorem second_call_is_free net net' w tok w' :
  locked w = false ->
  run net get_access_token w = (Returned tok, w') ->
  Py.truthy tok = true ->
  run net' get_access_token w' = (Returned tok, w').
Proof.
  intros Hl Hrun Htok.
  destruct (get_access_token_returned net w tok w' Hl Hrun) as (Hl' & Ht & Hc).
  destruct (get_access_token_cases net' w' Hl')
    as [(_ & _ & H)|[(_ & Hc' & _)|(ws & _ & _ & _ & Hs & _)]].
  - rewrite H, Ht. reflexivity.
  - rewrite Hc in Hc'. discriminate Hc'.
  - unfold refresh_start in Hs. rewrite Ht, Htok, Hc in Hs. discriminate Hs.
Qed.

Lemma second_call_is_free_witness :
  let tok := mkPayload (Some "T") None None None None None in
  let net := scripted [mkResponse 200 (Some tok) 0] (mkResponse 504 None 0) in
  let w' := snd (run net get_access_token (fresh None)) in
  run (scripted [] (mkResponse 504 None 0)) get_access_token w' = (Returned (Some "T"), w').
Proof.
  intros tok net w'.
  refine (second_call_is_free net _ (fresh None) (Some "T") w' _ _ _); reflexivity.
Defined.



(** X15: a refresh answered with status 200 and a body without
    [access_token] leaves the instance with no token but marked as
    checked: [get_access_token] returns [None], and the next call starts
    another refresh at once, without a check. *)
Theorem refresh_without_token net w ws data w1 :
  locked w = false ->
  refresh_start net w = Some ws ->
  run net (_perform_api_request (refresh_request ws)) ws = (Returned (data, 200), w1) ->
  access_token data = None ->
  exists w',
    run net get_access_token w = (Returned None, w') /\
    _access_token_checked (self (mem w')) = true /\
    forall net', refresh_start net' w' = Some (set_locked true w').
Proof.
  intros Hl Hs Hex Hnone.
  destruct (get_access_token_cases net w Hl)
    as [(Ht & Hc & _)|[(Ht & Hc & H200 & _)|(ws' & data' & st & w1' & Hs' & Hex' & Hfr & Hcase)]].
  - unfold refresh_start in Hs. rewrite Ht, Hc in Hs. discriminate Hs.
  - unfold refresh_start in Hs. rewrite Ht, Hc in Hs. simpl in Hs.
    rewrite H200 in Hs. discriminate Hs.
  - rewrite Hs in Hs'. injection Hs' as <-.
    rewrite Hex in Hex'. injection Hex' as <- <- <-.
    destruct Hcase as [[_ Hrun]|[Hne _]]; [|contradiction].
    rewrite Hnone in Hrun.
    eexists. split; [exact Hrun|]. split; [reflexivity|].
    intros net'. unfold refresh_start, after_refresh. simpl. rewrite Hnone. reflexivity.
Qed.

Lemma refresh_without_token_witness :
  let net := scripted [mkResponse 200 (Some empty_payload) 0] (mkResponse 504 None 0) in
  exists w',
    run net get_access_token (fresh None) = (Returned None, w') /\
    _access_token_checked (self (mem w')) = true /\
    forall net', refresh_start net' w' = Some (set_locked true w').
Proof.
  intros net.
  refine (refresh_without_token net (fresh None) (set_locked true (fresh None))
            (stamp 0 empty_payload)
            (after_requests 1 0 (refresh_request (fresh None)) (set_locked true (fresh None)))
            _ _ _ _); reflexivity.
Defined.

(** X16: [read_config] keeps the checked flag when the configured token
    is the cached one and clears it when the token differs; after it read
    a different, non-empty token, the next [get_access_token] sends one
    check request for that token before anything else. *)
Theorem read_config_forces_validation net api_key api_secret new_token w :
  let s := read_config api_key api_secret new_token (self (mem w)) in
  let w1 := mkWorld (mkMem s (config (mem w)) (log (mem w))) (sent w) (locked w) (yielded w) in
  _access_token s = new_token /\
  (_access_token (self (mem w)) = new_token ->
   _access_token_checked s = _access_token_checked (self (mem w))) /\
  (_access_token (self (mem w)) <> new_token ->
   _access_token_checked s = false /\
   (locked w = false -> Py.truthy new_token = true ->
    exists o w', run net get_access_token w1 = (o, w') /\
                 exists rest, sent w' = sent w ++ mkRequest CheckToken (TokenParam new_token) :: rest)).
Proof.
  intros s w1. subst s w1. unfold read_config. cbn [_access_token _access_token_checked].
  destruct (decide (_access_token (self (mem w)) = new_token)) as [Heq|Hne].
  - rewrite bool_decide_eq_true_2 by exact Heq. cbn [negb].
    split; [exact Heq|]. split; [reflexivity|]. intros H. contradiction.
  - rewrite bool_decide_eq_false_2 by exact Hne. cbn [negb].
    split; [reflexivity|]. split; [intros H; contradiction|]. intros _.
    split; [reflexivity|]. intros Hl Htok.
    match goal with |- exists o w', run net get_access_token ?w1 = _ /\ _ =>
      destruct (get_access_token_cases net w1 Hl)
        as [(_ & Hc & _)|[(_ & _ & _ & H)|(ws & data & st & w1' & Hs & Hex & Hfr & Hcase)]]
    end.
    + discriminate Hc.
    + eexists _, _. split; [exact H|]. exists []. reflexivity.
    + unfold refresh_start in Hs. simpl in Hs. rewrite Htok in Hs. simpl in Hs.
      match type of Hs with
      | (if ?b then _ else _) = _ => destruct b; [discriminate Hs|]
      end.
      injection Hs as <-.
      match type of Hex with
      | run net (_perform_api_request ?rq) ?w0 = _ =>
          destruct (executor_sent net rq w0) as (n & _ & Hsent)
      end.
      rewrite Hex in Hsent. cbn [snd] in Hsent.
      destruct Hcase as [[_ H]|[_ H]]; eexists _, _; (split; [exact H|]);
        eexists; simpl; rewrite Hsent; simpl; rewrite <- app_assoc; reflexivity.
Qed.

Lemma read_config_forces_validation_witness :
  let net := scripted [mkResponse 200 None 0] (mkResponse 504 None 0) in
  let s := read_config None None (Some "n") (self (mem (fresh (Some "o")))) in
  exists o w',
    run net get_access_token (mkWorld (mkMem s ∅ []) [] false []) = (o, w') /\
    exists rest, sent w' = [] ++ mkRequest CheckToken (TokenParam (Some "n")) :: rest.
Proof.
  intros net s.
  refine (proj2 (proj2 (proj2 (read_config_forces_validation net None None (Some "n")
                                 (fresh (Some "o")))) _) _ _).
  - discriminate.
  - reflexivity.
  - reflexivity.
Defined.

(** ** Ladder reconciliation: what a located team is *)

Lemma py_getitem_0 {A} (l : list A) (x : A) :
  py_getitem l 0 = ok x <-> l !! 0%nat = Some x.
Proof.
  rewrite py_getitem_nonneg by lia. change (Z.to_nat 0) with 0%nat.
  destruct (l !! 0%nat); unfold ok, raise; split; intros H; congruence.
Qed.

Lemma in_py_range a b i : In i (py_range a b) <-> a <= i < b.
Proof.
  unfold py_range. rewrite in_map_iff. split.
  - intros (n & <- & Hn). apply in_seq in Hn. lia.
  - intros H. exists (Z.to_nat (i - a)). split; [lia|]. apply in_seq. lia.
Qed.

Section LocateFacts.
Variables (realmID profileID : Z) (data : payload) (teams : list Team.t).
Hypothesis Hteams : ladderTeams data = Some teams.

Lemma claimed_team_inv meta_data used t p used' :
  claimed_team realmID profileID data meta_data used = ok (t, p, used') ->
  py_getitem teams (Rank.rank meta_data - 1) = ok t /\
  Team.teamMembers t !! 0%nat = Some p /\
  is_target realmID profileID p = true /\
  used' = used ++ [Rank.rank meta_data - 1].
Proof.
  unfold claimed_team. rewrite Hteams. cbn [not_none rbind ok].
  destruct (py_getitem teams (Rank.rank meta_data - 1)) as [e|t'] eqn:Et; [discriminate|].
  cbn [rbind].
  destruct (py_getitem (Team.teamMembers t') 0) as [e|p'] eqn:Ep; [discriminate|].
  cbn [rbind]. unfold py_assert, is_target.
  destruct (Member.id p' =? profileID) eqn:Ei; [|discriminate]. cbn [rbind ok].
  destruct (Member.realm p' =? realmID) eqn:Er; [|discriminate]. cbn [rbind ok].
  intros [= <- <- <-]. split; [reflexivity|]. split; [apply py_getitem_0; exact Ep|].
  rewrite Ei, Er. split; reflexivity.
Qed.

(** The fast path raises nothing but [IndexError] and [AssertionError]. *)
Lemma claimed_team_errors meta_data used e :
  claimed_team realmID profileID data meta_data used = raise e ->
  e = IndexError \/ e = AssertionError.
Proof.
  unfold claimed_team. rewrite Hteams. cbn [not_none rbind ok].
  destruct (py_getitem_cases teams (Rank.rank meta_data - 1)) as [-> | [t ->]];
    [intros [= <-]; auto|].
  cbn [rbind ok].
  destruct (py_getitem_cases (Team.teamMembers t) 0) as [-> | [p ->]];
    [intros [= <-]; auto|].
  cbn [rbind ok]. unfold py_assert.
  destruct (Member.id p =? profileID); [|intros [= <-]; auto]. cbn [rbind ok].
  destruct (Member.realm p =? realmID); [|intros [= <-]; auto]. cbn [rbind ok].
  discriminate.
Qed.

Lemma forward_scan_sound used :
  forall indices i t p,
    forward_scan realmID profileID data indices used = ok (Some (i, t, p)) ->
    In i indices /\ (i ∉ used) /\
    py_getitem teams i = ok t /\
    Team.teamMembers t !! 0%nat = Some p /\
    is_target realmID profileID p = true.
Proof.
  induction indices as [|j rest IH]; intros i t p H; [discriminate H|].
  cbn [forward_scan] in H. rewrite Hteams in H. cbn [not_none rbind ok] in H.
  destruct (py_getitem teams j) as [e|tj] eqn:Et; [discriminate H|]. cbn [rbind] in H.
  destruct (py_getitem (Team.teamMembers tj) 0) as [e|pj] eqn:Ep; [discriminate H|].
  cbn [rbind] in H.
  destruct (bool_decide (j ∉ used) && (Member.id pj =? profileID)
            && (Member.realm pj =? realmID)) eqn:Ec.
  - injection H as <- <- <-.
    apply andb_true_iff in Ec. destruct Ec as [Ec Hr].
    apply andb_true_iff in Ec. destruct Ec as [Hu Hi].
    split; [left; reflexivity|]. split; [apply bool_decide_eq_true in Hu; exact Hu|].
    split; [exact Et|]. split; [apply py_getitem_0; exact Ep|].
    unfold is_target. rewrite Hi, Hr. reflexivity.
  - destruct (IH i t p H) as (Hin & Hrest). split; [right; exact Hin|exact Hrest].
Qed.

(** The forward scan raises nothing but [IndexError]. *)
Lemma forward_scan_errors used :
  forall indices e,
    forward_scan realmID profileID data indices used = raise e -> e = IndexError.
Proof.
  induction indices as [|j rest IH]; intros e H; [discriminate H|].
  cbn [forward_scan] in H. rewrite Hteams in H. cbn [not_none rbind ok] in H.
  destruct (py_getitem_cases teams j) as [E | [tj E]]; rewrite E in H;
    [injection H as <-; reflexivity|].
  cbn [rbind ok] in H.
  destruct (py_getitem_cases (Team.teamMembers tj) 0) as [E' | [pj E']]; rewrite E' in H;
    [injection H as <-; reflexivity|].
  cbn [rbind ok] in H.
  destruct (bool_decide (j ∉ used) && (Member.id pj =? profileID)
            && (Member.realm pj =? realmID)); [discriminate H|].
  exact (IH e H).
Qed.

(** Every way [locate] succeeds. *)
Lemma locate_inv loc meta_data t p loc' :
  locate realmID profileID data loc meta_data = ok (t, p, loc') ->
  Team.teamMembers t !! 0%nat = Some p /\
  is_target realmID profileID p = true /\
  exists i,
    py_getitem teams i = ok t /\
    used loc' = used loc ++ [i] /\
    ((i = Rank.rank meta_data - 1 /\ found_idx loc' = found_idx loc) \/
     (found_idx loc < i < Z.of_nat (length teams) /\ (i ∉ used loc) /\
      found_idx loc' = i)).
Proof.
  unfold locate. rewrite Hteams. cbn [not_none rbind ok].
  destruct (claimed_team realmID profileID data meta_data (used loc))
    as [e|[[t' p'] used']] eqn:Ec.
  - assert (Hscan : forall r : result (Team.t * Member.t * locals),
      r = rbind (forward_scan realmID profileID data
                   (py_range (found_idx loc + 1) (Z.of_nat (length teams))) (used loc))
            (fun hit => match hit with
                        | Some (team_idx, team, player) =>
                            ok (team, player, mkLocals team_idx (used loc ++ [team_idx]))
                        | None => raise (NameError "r")
                        end) ->
      r = ok (t, p, loc') ->
      Team.teamMembers t !! 0%nat = Some p /\
      is_target realmID profileID p = true /\
      exists i,
        py_getitem teams i = ok t /\
        used loc' = used loc ++ [i] /\
        ((i = Rank.rank meta_data - 1 /\ found_idx loc' = found_idx loc) \/
         (found_idx loc < i < Z.of_nat (length teams) /\ (i ∉ used loc) /\
          found_idx loc' = i))).
    { intros r -> H.
      destruct (forward_scan realmID profileID data _ (used loc)) as [e'|[[[i t0] p0]|]] eqn:Es;
        try discriminate H.
      cbn [rbind ok] in H. injection H as <- <- <-.
      destruct (forward_scan_sound _ _ _ _ _ Es) as (Hin & Hu & Hg & Hm & Ht).
      apply in_py_range in Hin.
      split; [exact Hm|]. split; [exact Ht|]. exists i.
      split; [exact Hg|]. split; [reflexivity|]. right. simpl. split; [lia|auto]. }
    destruct (claimed_team_errors _ _ _ Ec) as [-> | ->]; intros H;
      exact (Hscan _ eq_refl H).
  - intros [= <- <- <-].
    destruct (claimed_team_inv _ _ _ _ _ Ec) as (Hg & Hm & Ht & ->).
    split; [exact Hm|]. split; [exact Ht|]. eexists. split; [exact Hg|].
    split; [reflexivity|]. left. split; reflexivity.
Qed.
End LocateFacts.


(** X17: whenever a team is located for an MMR entry, it is a team of the
    snapshot whose first member is the player asked for, exactly one index
    is appended to [used], and that index is either the claimed one (the
    watermark stays) or an index above the watermark that was not consumed
    (the watermark moves to it). *)
Theorem located_team_is_the_players
        (realmID profileID : Z) (data : payload) (teams : list Team.t)
        (loc : locals) (meta_data : Rank.t) (t : Team.t) (p : Member.t) (loc' : locals) :
  ladderTeams data = Some teams ->
  locate realmID profileID data loc meta_data = ok (t, p, loc') ->
  t ∈ teams /\
  Team.teamMembers t !! 0%nat = Some p /\
  Member.id p = profileID /\ Member.realm p = realmID /\
  exists i,
    py_getitem teams i = ok t /\
    used loc' = used loc ++ [i] /\
    ((i = Rank.rank meta_data - 1 /\ found_idx loc' = found_idx loc) \/
     (found_idx loc < i < Z.of_nat (length teams) /\ (i ∉ used loc) /\
      found_idx loc' = i)).
Proof.
  intros Hteams Hloc.
  destruct (locate_inv realmID profileID data teams Hteams loc meta_data t p loc' Hloc)
    as (Hm & Ht & i & Hg & Hrest).
  split; [eapply py_getitem_elem; exact Hg|]. split; [exact Hm|].
  unfold is_target in Ht. apply andb_true_iff in Ht. destruct Ht as [Hi Hr].
  apply Z.eqb_eq in Hi, Hr. split; [exact Hi|]. split; [exact Hr|].
  exists i. split; [exact Hg|exact Hrest].
Qed.

Lemma located_team_is_the_players_witness :
  let t := Team.mk [Member.mk 42 1 None None] 1 0 3100 10 in
  t ∈ [t; Team.mk [Member.mk 42 1 None None] 2 0 3200 20;
       Team.mk [Member.mk 42 1 None None] 3 0 3300 30] /\
  Team.teamMembers t !! 0%nat = Some (Member.mk 42 1 None None) /\
  42 = 42 /\ 1 = 1 /\
  exists i,
    py_getitem [t; Team.mk [Member.mk 42 1 None None] 2 0 3200 20;
                Team.mk [Member.mk 42 1 None None] 3 0 3300 30] i = ok t /\
    [2; 0] = [2] ++ [i] /\
    ((i = 7 - 1 /\ 0 = -1) \/ (-1 < i < 3 /\ (i ∉ [2]) /\ 0 = i)).
Proof.
  intros t.
  refine (located_team_is_the_players 1 42 three_teams_snapshot _
            (mkLocals (-1) [2]) (Rank.mk 7 3100) t (Member.mk 42 1 None None)
            (mkLocals 0 [2; 0]) _ _); reflexivity.
Defined.

(** The forward scan stops with [IndexError] at the first team without
    members, consumed or not, when no team before it was accepted. *)
Lemma forward_scan_memberless realmID profileID data teams used j tj :
  ladderTeams data = Some teams ->
  forall n a,
    Z.of_nat n = j - a -> 0 <= a ->
    j < Z.of_nat (length teams) ->
    teams !! Z.to_nat j = Some tj ->
    Team.teamMembers tj = [] ->
    (forall k, a <= k < j ->
       exists tk pk, teams !! Z.to_nat k = Some tk /\
                     Team.teamMembers tk !! 0%nat = Some pk /\
                     (k ∈ used \/ is_target realmID profileID pk = false)) ->
    forward_scan realmID profileID data (py_range a (Z.of_nat (length teams))) used
      = raise IndexError.
Proof.
  intros Hteams. induction n as [|n IH]; intros a Hn Ha Hj Htj Hempty Hbefore.
  - assert (a = j) as -> by lia.
    rewrite py_range_cons by lia. cbn [forward_scan]. rewrite Hteams. cbn [not_none rbind ok].
    rewrite (py_getitem_in_range teams j tj Ha Htj). cbn [rbind ok].
    rewrite Hempty. reflexivity.
  - rewrite py_range_cons by lia.
    destruct (Hbefore a) as (tk & pk & Htk & Hpk & Hskip); [lia|].
    rewrite (forward_scan_step realmID profileID data teams Hteams a _ used tk pk); auto.
    assert (Hc : bool_decide (a ∉ used) && is_target realmID profileID pk = false).
    { destruct Hskip as [Hin| ->].
      - rewrite bool_decide_eq_false_2; [reflexivity|]. intros Hnot. exact (Hnot Hin).
      - apply andb_false_r. }
    rewrite Hc. apply IH; auto; try lia.
    intros k Hk. apply Hbefore. lia.
Qed.

(** X18: when the fast path fails and the forward scan meets a team
    without members before it has accepted a team, the fetch fails with an
    [IndexError] that nothing catches, even if a team of the player comes
    later in the list. *)
Theorem scan_stops_at_team_without_members
        (realmID profileID : Z) (data : payload) (teams : list Team.t)
        (loc : locals) (meta_data : Rank.t) (j : Z) (tj : Team.t) :
  ladderTeams data = Some teams ->
  (claimed_team realmID profileID data meta_data (used loc) = raise IndexError \/
   claimed_team realmID profileID data meta_data (used loc) = raise AssertionError) ->
  -1 <= found_idx loc ->
  found_idx loc < j < Z.of_nat (length teams) ->
  teams !! Z.to_nat j = Some tj ->
  Team.teamMembers tj = [] ->
  (forall k, found_idx loc < k < j ->
     exists tk pk, teams !! Z.to_nat k = Some tk /\
                   Team.teamMembers tk !! 0%nat = Some pk /\
                   (k ∈ used loc \/ is_target realmID profileID pk = false)) ->
  locate realmID profileID data loc meta_data = raise IndexError.
Proof.
  intros Hteams Hfail Hmark Hj Htj Hempty Hbefore.
  assert (Hscan : forward_scan realmID profileID data
                    (py_range (found_idx loc + 1) (Z.of_nat (length teams)))
                    (used loc) = raise IndexError).
  { apply (forward_scan_memberless realmID profileID data teams (used loc) j tj Hteams
             (Z.to_nat (j - (found_idx loc + 1)))); auto; try lia.
    intros k Hk. apply Hbefore. lia. }
  unfold locate. rewrite Hteams. cbn [not_none rbind ok]. rewrite Hscan.
  destruct Hfail as [-> | ->]; reflexivity.
Qed.

Lemma scan_stops_at_team_without_members_witness :
  let data := mkPayload None None None
                (Some [Team.mk [] 0 0 0 0; Team.mk [Member.mk 42 1 None None] 1 0 3100 10])
                None None in
  locate 1 42 data (mkLocals (-1) []) (Rank.mk 5 3100) = raise IndexError.
Proof.
  intros data.
  refine (scan_stops_at_team_without_members 1 42 data _ (mkLocals (-1) [])
            (Rank.mk 5 3100) 0 (Team.mk [] 0 0 0 0) _ _ _ _ _ _ _).
  - reflexivity.
  - left. reflexivity.
  - simpl. lia.
  - simpl. lia.
  - reflexivity.
  - reflexivity.
  - simpl. intros k Hk. lia.
Defined.





(** ** The fetchers: token, request, status *)

(** What both fetchers do before they look at the payload. *)
Lemma ladder_fetch_prologue net server realmID profileID ladderID w tok w1 data st w2 :
  run net get_access_token w = (Returned tok, w1) ->
  run net (_perform_api_request
             (mkRequest (LadderUrl (ServerEnum.id server) realmID profileID ladderID)
                        (AccessToken tok))) w1 = (Returned (data, st), w2) ->
  run net (_get_ladder_data server realmID profileID ladderID) w =
    if st =? 200 then
      run net (league <- lift (LeagueEnum.get (league data)) ;;
               entries <- lift (not_none (ranksAndPools data)) ;;
               ladder_loop (LadderUrl (ServerEnum.id server) realmID profileID ladderID)
                           realmID profileID ladderID league data entries
                           (mkLocals (-1) [])) w2
    else (Raised (InvalidApiResponse st), w2).
Proof.
  intros Hget Hex. unfold _get_ladder_data. cbv zeta.
  rewrite run_bind, Hget, run_bind, Hex.
  destruct (st =? 200); reflexivity.
Qed.

Lemma history_fetch_prologue net server realmID profileID scope w tok w1 data st w2 :
  run net get_access_token w = (Returned tok, w1) ->
  run net (_perform_api_request
             (mkRequest (MatchesUrl (ServerEnum.id server) realmID profileID)
                        (AccessToken tok))) w1 = (Returned (data, st), w2) ->
  run net (_get_match_history server realmID profileID scope) w =
    if st =? 200 then
      (match history_loop scope (default [] (matches data)) [] with
       | inl e => Raised e
       | inr l => Returned l
       end, w2)
    else (Raised (InvalidApiResponse st), w2).
Proof.
  intros Hget Hex. unfold _get_match_history. cbv zeta.
  rewrite run_bind, Hget, run_bind, Hex.
  destruct (st =? 200); [|reflexivity]. cbn [negb]. apply run_lift.
Qed.

(** X20: a fetcher whose request ends with a status other than 200 raises
    [InvalidApiResponse] with that status, in the world the executor left:
    the ladder fetch before it yields anything, the match-history fetch
    before it reads any match. A failure of [get_access_token] is raised
    by the fetcher as it is, and no request of the fetcher is sent. *)
Theorem fetchers_surface_the_status net server realmID profileID w :
  (forall ladderID tok w1 data st w2,
     run net get_access_token w = (Returned tok, w1) ->
     run net (_perform_api_request
                (mkRequest (LadderUrl (ServerEnum.id server) realmID profileID ladderID)
                           (AccessToken tok))) w1 = (Returned (data, st), w2) ->
     st <> 200 ->
     run net (_get_ladder_data server realmID profileID ladderID) w =
       (Raised (InvalidApiResponse st), w2)) /\
  (forall scope tok w1 data st w2,
     run net get_access_token w = (Returned tok, w1) ->
     run net (_perform_api_request
                (mkRequest (MatchesUrl (ServerEnum.id server) realmID profileID)
                           (AccessToken tok))) w1 = (Returned (data, st), w2) ->
     st <> 200 ->
     run net (_get_match_history server realmID profileID scope) w =
       (Raised (InvalidApiResponse st), w2)) /\
  (forall e w1,
     run net get_access_token w = (Raised e, w1) ->
     (forall ladderID,
        run net (_get_ladder_data server realmID profileID ladderID) w = (Raised e, w1)) /\
     (forall scope,
        run net (_get_match_history server realmID profileID scope) w = (Raised e, w1))).
Proof.
  split; [|split].
  - intros ladderID tok w1 data st w2 Hget Hex Hst.
    rewrite (ladder_fetch_prologue _ _ _ _ _ _ _ _ _ _ _ Hget Hex).
    destruct (Z.eqb_spec st 200); [contradiction|reflexivity].
  - intros scope tok w1 data st w2 Hget Hex Hst.
    rewrite (history_fetch_prologue _ _ _ _ _ _ _ _ _ _ _ Hget Hex).
    destruct (Z.eqb_spec st 200); [contradiction|reflexivity].
  - intros e w1 Hget. split.
    + intros ladderID. unfold _get_ladder_data. cbv zeta. rewrite run_bind, Hget. reflexivity.
    + intros scope. unfold _get_match_history. cbv zeta. rewrite run_bind, Hget. reflexivity.
Qed.

Lemma fetchers_surface_the_status_witness :
  let tok := mkPayload (Some "T") None None None None None in
  let net := scripted [mkResponse 200 (Some tok) 0; mkResponse 404 (Some empty_payload) 0]
                      (mkResponse 504 None 0) in
  fst (run net (_get_ladder_data Europe 1 42 7) (fresh None)) =
    Raised (InvalidApiResponse 404).
Proof.
  intros tok net.
  pose (w1 := snd (run net get_access_token (fresh None))).
  pose (rq := mkRequest (LadderUrl (ServerEnum.id Europe) 1 42 7) (AccessToken (Some "T"))).
  refine (f_equal fst
            (proj1 (fetchers_surface_the_status net Europe 1 42 (fresh None))
               7 (Some "T") w1 (stamp 0 empty_payload) 404
               (after_requests 1 0 rq w1) _ _ _)).
  - reflexivity.
  - reflexivity.
  - lia.
Defined.

(** X21: on a response of status 200 the ladder fetch reads the league
    first and the MMR entries next: a league code that [League.get] does
    not know raises its [ValueError], a payload without [ranksAndPools]
    raises [TypeError], and an empty [ranksAndPools] ends the fetch
    normally; in all three cases nothing is yielded and nothing is sent
    after the request. *)
Theorem ladder_fetch_without_entries
        net server realmID profileID ladderID w tok w1 data w2 :
  run net get_access_token w = (Returned tok, w1) ->
  run net (_perform_api_request
             (mkRequest (LadderUrl (ServerEnum.id server) realmID profileID ladderID)
                        (AccessToken tok))) w1 = (Returned (data, 200), w2) ->
  (forall e, LeagueEnum.get (league data) = raise e ->
     run net (_get_ladder_data server realmID profileID ladderID) w = (Raised e, w2)) /\
  (forall l, LeagueEnum.get (league data) = ok l ->
     (ranksAndPools data = None ->
      run net (_get_ladder_data server realmID profileID ladderID) w =
        (Raised TypeError, w2)) /\
     (ranksAndPools data = Some [] ->
      run net (_get_ladder_data server realmID profileID ladderID) w =
        (Returned tt, w2))).
Proof.
  intros Hget Hex.
  rewrite (ladder_fetch_prologue _ _ _ _ _ _ _ _ _ _ _ Hget Hex).
  change (200 =? 200) with true. cbv iota.
  split.
  - intros e He. unfold raise in He. rewrite run_bind, run_lift, He. reflexivity.
  - intros l Hl. unfold ok in Hl. rewrite run_bind, run_lift, Hl. cbv beta iota.
    split; intros Hr; rewrite run_bind, run_lift, Hr; reflexivity.
Qed.

Lemma ladder_fetch_without_entries_witness :
  let tok := mkPayload (Some "T") None None None None None in
  let net := scripted [mkResponse 200 (Some tok) 0; mkResponse 200 (Some empty_payload) 0]
                      (mkResponse 504 None 0) in
  fst (run net (_get_ladder_data Europe 1 42 7) (fresh None)) = Raised TypeError.
Proof.
  intros tok net.
  pose (w1 := snd (run net get_access_token (fresh None))).
  pose (rq := mkRequest (LadderUrl (ServerEnum.id Europe) 1 42 7) (AccessToken (Some "T"))).
  refine (f_equal fst
            (proj1 (proj2 (ladder_fetch_without_entries net Europe 1 42 7 (fresh None)
                             (Some "T") w1 (stamp 0 empty_payload)
                             (after_requests 1 0 rq w1) _ _) Unranked _) _)).
  - reflexivity.
  - reflexivity.
  - reflexivity.
  - reflexivity.
Defined.

(** ** Match history *)

(** [Result[name]] against the member names. *)
Lemma getitem_by_name (name : string) :
  (forall r, ResultEnum.getitem name = ok r <-> name = Result_describe r) /\
  ((forall r, name <> Result_describe r) ->
   ResultEnum.getitem name = raise (KeyError name)).
Proof.
  unfold ResultEnum.getitem, ResultEnum.members. cbn [member_by_name].
  destruct (String.eqb_spec "Unknown" name) as [<-|H0].
  { split; [|intros H; exfalso; exact (H ResultUnknown eq_refl)].
    intros r. destruct r; split; intros H; try reflexivity; discriminate H. }
  destruct (String.eqb_spec "Win" name) as [<-|H1].
  { split; [|intros H; exfalso; exact (H Win eq_refl)].
    intros r. destruct r; split; intros H; try reflexivity; discriminate H. }
  destruct (String.eqb_spec "Loss" name) as [<-|H2].
  { split; [|intros H; exfalso; exact (H Loss eq_refl)].
    intros r. destruct r; split; intros H; try reflexivity; discriminate H. }
  destruct (String.eqb_spec "Tie" name) as [<-|H3].
  { split; [|intros H; exfalso; exact (H Tie eq_refl)].
    intros r. destruct r; split; intros H; try reflexivity; discriminate H. }
  split; [|reflexivity].
  intros r. split; [discriminate|].
  intros ->. exfalso.
  destruct r; [exact (H0 eq_refl)|exact (H1 eq_refl)|exact (H2 eq_refl)|exact (H3 eq_refl)].
Qed.

(** X22: [Result[name]] succeeds exactly on the four member names, with
    their case: it is the inverse of [Result.describe], and any other
    text, such as a name in lower case, raises [KeyError] with that
    text. *)
Theorem Result_getitem_exact (name : string) :
  (forall r, ResultEnum.getitem name = ok r <-> name = Result_describe r) /\
  ((forall r, name <> Result_describe r) ->
   ResultEnum.getitem name = raise (KeyError name)).
Proof. exact (getitem_by_name name). Qed.

Lemma Result_getitem_exact_witness :
  ResultEnum.getitem "win" = raise (KeyError "win").
Proof.
  refine (proj2 (Result_getitem_exact "win") _).
  intros r. destruct r; discriminate.
Defined.





(** ** The profile-URL parser: what a parsed triple is *)

Lemma int_digits_nonneg s :
  forall acc z, int_digits acc s = Some z -> 0 <= acc -> 0 <= z.
Proof.
  induction s as [|c s IH]; intros acc z H Hacc; simpl in H.
  - injection H as <-. exact Hacc.
  - destruct (is_digit c) eqn:Hc; [|discriminate H].
    apply (IH _ _ H). unfold is_digit in Hc. apply andb_true_iff in Hc.
    destruct Hc as [Hc _]. apply Nat.leb_le in Hc. unfold digit_value. lia.
Qed.

(** The parser on a URL that the first pattern matches. *)
Lemma parse_p1_case url m :
  match_ _p1 url = Some m ->
  exists v realm profile,
    generic_url url v realm profile /\ 1 <= v <= 5 /\
    (realm = 1 \/ realm = 2) /\ 0 <= profile /\
    parse_profile_url url =
      rbind (ServerEnum.of_value v) (fun server => ok (server, realm, profile)).
Proof.
  intros Hm. pose proof Hm as Hinv. apply p1_match_inv in Hinv.
  destruct Hinv as (head & dot & com & loc & prof & d1 & d2 & ds & rest
                    & Hurl & Hh & Hdot & Hc & Hl & Hp & H1 & H2 & Hd & Hr & ->).
  destruct (parse_on_p1 url d1 d2 ds Hm H1 H2 Hd) as (profile & Hpid & Hparse).
  exists (digit_value d1), (digit_value d2), profile.
  pose proof (in_range_digit _ _ _ H1) as Hb1.
  pose proof (in_range_digit _ _ _ H2) as Hb2.
  change (Z.of_nat (nat_of_ascii "1") - 48) with 1 in Hb1, Hb2.
  change (Z.of_nat (nat_of_ascii "5") - 48) with 5 in Hb1.
  change (Z.of_nat (nat_of_ascii "2") - 48) with 2 in Hb2.
  split; [exists head, dot, com, loc, prof, d1, d2, ds, rest; tauto|].
  split; [exact Hb1|]. split; [lia|].
  split; [exact (int_digits_nonneg _ _ _ Hpid (Z.le_refl 0))|exact Hparse].
Qed.

(** The parser on a URL that only the second pattern matches. *)
Lemma parse_p2_case url m :
  match_ _p1 url = None -> match_ _p2 url = Some m ->
  exists server realm profile region,
    region_url url (ServerEnum.value server) realm profile /\
    group m 1 = Some region /\ Server_short server = ok (Py.lower region) /\
    (realm = 1 \/ realm = 2) /\ 0 <= profile /\
    parse_profile_url url = ok (server, realm, profile).
Proof.
  intros Hn Hm. pose proof Hm as Hinv. apply p2_match_inv in Hinv.
  destruct Hinv as (head & region & dot1 & battle & dot2 & net & game & prof & ds & d2
                    & n1 & rest & Hurl & Hh & Hregion & Hd1 & Hb & Hd2 & Hnet & Hg & Hp
                    & Hds & H2 & Hn1 & ->).
  destruct (parse_on_p2 url region ds d2 Hn Hm H2 Hds) as (profile & Hpid & Hparse).
  exists (if String.eqb (Py.lower region) "eu" then Europe else America),
         (digit_value d2), profile, region.
  pose proof (in_range_digit _ _ _ H2) as Hb2.
  change (Z.of_nat (nat_of_ascii "1") - 48) with 1 in Hb2.
  change (Z.of_nat (nat_of_ascii "2") - 48) with 2 in Hb2.
  split.
  { exists head, region, dot1, battle, dot2, net, game, prof, ds, d2, n1, rest.
    repeat (split; [first [assumption | reflexivity]|]).
    split; [|tauto].
    destruct Hregion as [Hr|Hr]; rewrite Hr; [left|right]; split; reflexivity. }
  split; [reflexivity|].
  split; [destruct Hregion as [Hr|Hr]; rewrite Hr; reflexivity|].
  split; [lia|].
  split; [exact (int_digits_nonneg _ _ _ Hpid (Z.le_refl 0))|exact Hparse].
Qed.

(** X24: a triple returned by the parser has a server other than
    [Server.Unknown], realm 1 or 2 and a profile id that is not
    negative. *)
Theorem parsed_triple_ranges url server realm profile :
  parse_profile_url url = ok (server, realm, profile) ->
  server <> ServerUnknown /\ (realm = 1 \/ realm = 2) /\ 0 <= profile.
Proof.
  intros Hparse.
  destruct (match_ _p1 url) as [m|] eqn:E1.
  - destruct (parse_p1_case url m E1) as (v & r & p & _ & Hv & Hr & Hp & Heq).
    rewrite Hparse in Heq.
    destruct (ServerEnum.of_value v) as [e|s] eqn:Ev; [discriminate Heq|].
    injection Heq as -> -> ->.
    apply of_value_value in Ev. split; [|auto].
    intros ->. simpl in Ev. lia.
  - destruct (match_ _p2 url) as [m|] eqn:E2.
    + destruct (parse_p2_case url m E1 E2) as (s & r & p & region & _ & _ & Hs & Hr & Hp & Heq).
      rewrite Hparse in Heq. injection Heq as -> -> ->.
      split; [|auto]. intros ->. discriminate Hs.
    + unfold parse_profile_url in Hparse. rewrite E1, E2 in Hparse. discriminate Hparse.
Qed.

Lemma parsed_triple_ranges_witness :
  Korea <> ServerUnknown /\ (2 = 1 \/ 2 = 2) /\ 0 <= 77.
Proof.
  refine (parsed_triple_ranges "HTTP://StarCraft2xCOM/profile/3/2/0077/extra" Korea 2 77 _).
  reflexivity.
Defined.

(** X25: no string is matched by both patterns, so the order in which
    the parser tries them decides no result. *)
Theorem patterns_are_disjoint url :
  match_ _p1 url = None \/ match_ _p2 url = None.
Proof.
  destruct (match_ _p2 url) as [m|] eqn:E2; [|right; reflexivity]. left.
  apply p2_match_inv in E2.
  destruct E2 as (head & region & dot1 & battle & dot2 & net & game & prof & ds & d2
                  & n1 & rest & Hurl & Hh & Hregion & Hd1 & Hb & Hd2 & Hnet & Hg & Hp
                  & Hds & H2 & Hn1 & _).
  destruct (int_digits_total ds (run_of_all _ _ Hds) 0) as [profile Hpid].
  apply (region_url_not_p1 url (if String.eqb (Py.lower region) "eu" then 2 else 1)
           (digit_value d2) profile).
  exists head, region, dot1, battle, dot2, net, game, prof, ds, d2, n1, rest.
  repeat (split; [first [assumption | reflexivity]|]).
  split; [|tauto].
  destruct Hregion as [Hr|Hr]; rewrite Hr; [left|right]; split; reflexivity.
Qed.







